(** * telemetry-demo: the agent worker and the latency collector

    A shallow embedding of [agent/worker.py] (voice-activity detection,
    the transcription and synthesis streams, the latency record and the
    session that ties them together) and of [metrics/latency_collector.py]
    (the windowed event buffer), followed by the properties proved of them.

    Conventions.
    - Python [float] is IEEE binary64, modelled with the Standard Library's
      [spec_float] at precision 53 and maximal exponent 1024; every
      arithmetic operation is the correctly rounded one of [SpecFloat].
    - Python [int] is [Z].
    - A Python exception is a value of [exn]; a computation that may raise
      has type [exn + A].
    - A [dict] with string keys is a [gmap string _].
    - [time.time()] is an input: every function that reads the clock takes
      the reading as an argument. *)

From Stdlib Require Import ZArith String Ascii SpecFloat Lia.
From stdpp Require Import gmap strings list fin_maps sorting.

#[local] Set Warnings "-register-all".
#[local] Open Scope Z_scope.

(** ** Exceptions *)

Inductive exn : Type :=
| TypeError
| AttributeError
| ValueError
| OverflowError
| ZeroDivisionError
| IndexError
| VadError.

Definition result (A : Type) : Type := exn + A.

Definition ok {A : Type} (a : A) : result A := inr a.
Definition raise {A : Type} (e : exn) : result A := inl e.

Definition bind {A B : Type} (m : result A) (k : A → result B) : result B :=
  match m with
  | inl e => inl e
  | inr a => k a
  end.

Notation "'do' x <- m ; k" := (bind m (fun x => k))
  (at level 10, x pattern, m at level 100, k at level 200).

(** ** Python floats *)

Module PyFloat.

Definition float : Type := spec_float.

Definition prec : Z := 53.
Definition emax : Z := 1024.

Definition mul : float → float → float := SFmul prec emax.
Definition sub : float → float → float := SFsub prec emax.
Definition div : float → float → float := SFdiv prec emax.

(** [float(z)] for a Python int: the nearest binary64, ties to even. *)
Definition of_Z (z : Z) : float := binary_normalize prec emax z 0 false.

(** The literal [n / 10^k] written in decimal: the source's [0.06] is
    [decimal 6 100], the binary64 nearest to the rational 6/100. *)
Definition decimal (n d : Z) : float := div (of_Z n) (of_Z d).

(** Truth value of a float in a condition: false for [0.0] and [-0.0] only
    (a NaN is true). *)
Definition truthy (x : float) : bool :=
  match x with
  | S754_zero _ => false
  | _ => true
  end.

(** The integer a finite float truncates to (towards zero). *)
Definition trunc (x : float) : Z :=
  match x with
  | S754_finite s m e =>
      let a := match e with
               | Zneg p => Z.pos m / 2 ^ Z.pos p
               | _ => Z.pos m * 2 ^ e
               end in
      if s then - a else a
  | _ => 0
  end.


(** [int(x)]: truncation; raises on an infinity and on a NaN. *)
Definition to_int (x : float) : result Z :=
  match x with
  | S754_infinity _ => raise OverflowError
  | S754_nan => raise ValueError
  | _ => ok (trunc x)
  end.

Definition ltb : float → float → bool := SFltb.
Definition leb : float → float → bool := SFleb.

(** [min(a, b)] of the builtin: [b] when [b < a], else [a]. *)
Definition min (a b : float) : float := if ltb b a then b else a.

(** Exact order between a float and an int, as Python compares them:
    [Some c] is the comparison of the float's value with [z]; [None] for a
    NaN. *)
Definition compare_Z (x : float) (z : Z) : option comparison :=
  match x with
  | S754_nan => None
  | S754_infinity s => Some (if s then Lt else Gt)
  | S754_zero _ => Some (0 ?= z)
  | S754_finite s m e =>
      let v := if s then Z.neg m else Z.pos m in
      match e with
      | Zneg p => Some (v ?= z * 2 ^ Z.pos p)
      | _ => Some (v * 2 ^ e ?= z)
      end
  end.

(** [x >= z]. *)
Definition geb_Z (x : float) (z : Z) : bool :=
  match compare_Z x z with
  | Some Lt | None => false
  | Some _ => true
  end.

End PyFloat.

Abbreviation float := PyFloat.float.

(** ** JSON values

    What [json.loads] produces and what [httpx] serialises: the payload of
    a metrics event on both sides of the wire. *)

Inductive json : Type :=
| JNull
| JBool (b : bool)
| JInt (z : Z)
| JFloat (f : float)
| JStr (s : string)
| JArr (l : list json)
| JObj (m : gmap string json).

(** Truth value of a JSON-decoded Python object. *)
Definition json_truthy (v : json) : bool :=
  match v with
  | JNull => false
  | JBool b => b
  | JInt z => negb (z =? 0)
  | JFloat f => PyFloat.truthy f
  | JStr s => negb (String.eqb s "")
  | JArr l => match l with [] => false | _ => true end
  | JObj m => negb (bool_decide (m = ∅))
  end.

(** ** Module-level constants of the worker *)

Definition SAMPLE_RATE : Z := 16000.
Definition FRAME_MS : Z := 20.

(** [int(SAMPLE_RATE * (FRAME_MS / 1000.0)) * 2] *)
Definition FRAME_BYTES : result Z :=
  do n <- PyFloat.to_int
            (PyFloat.mul (PyFloat.of_Z SAMPLE_RATE)
                         (PyFloat.div (PyFloat.of_Z FRAME_MS) (PyFloat.of_Z 1000)));
  ok (n * 2).

Definition bytes : Type := list Byte.byte.

(** ** LatencyTurn *)

Module LatencyTurn.

Record t : Type := mk {
  speech_start_ts : option float;
  stt_first_partial_ts : option float;
  stt_final_ts : option float;
  agent_decision_ts : option float;
  tts_first_byte_ts : option float;
  playback_start_ts : option float
}.

(** [LatencyTurn()] *)
Definition init : t := mk None None None None None None.

(** [_ms]: [int(ts * 1000) if ts else None]. The condition is the truth
    value of [ts]: [None] and a zero are both false. *)
Definition _ms (ts : option float) : result json :=
  match ts with
  | Some x =>
      if PyFloat.truthy x
      then do n <- PyFloat.to_int (PyFloat.mul x (PyFloat.of_Z 1000)); ok (JInt n)
      else ok JNull
  | None => ok JNull
  end.

(** [_delta]: [int((b - a) * 1000)] if [a and b], else [None]. *)
Definition _delta (a b : option float) : result json :=
  match a, b with
  | Some x, Some y =>
      if PyFloat.truthy x && PyFloat.truthy y
      then do n <- PyFloat.to_int
                     (PyFloat.mul (PyFloat.sub y x) (PyFloat.of_Z 1000));
           ok (JInt n)
      else ok JNull
  | _, _ => ok JNull
  end.

(** [to_dict]: the dict literal evaluates its values in the order written. *)
Definition to_dict (self : t) : result (gmap string json) :=
  do v1 <- _ms (speech_start_ts self);
  do v2 <- _ms (stt_first_partial_ts self);
  do v3 <- _ms (stt_final_ts self);
  do v4 <- _ms (agent_decision_ts self);
  do v5 <- _ms (tts_first_byte_ts self);
  do v6 <- _ms (playback_start_ts self);
  do v7 <- _delta (speech_start_ts self) (playback_start_ts self);
  ok (<["round_trip_ms" := v7]>
      (<["playback_start_ms" := v6]>
       (<["tts_first_byte_ms" := v5]>
        (<["agent_decision_ms" := v4]>
         (<["stt_final_ms" := v3]>
          (<["stt_first_partial_ms" := v2]>
           (<["speech_start_ms" := v1]> ∅))))))).

End LatencyTurn.

(** ** Strings as the worker uses them

    Strings are sequences of 8-bit characters (the ASCII range of [str]). *)

Module PyStr.

(** [len(s)] *)
Definition len (s : string) : Z := Z.of_nat (String.length s).

(** [sep.join(l)] *)
Definition join (sep : string) (l : list string) : string := String.concat sep l.

(** The characters [str.isspace] accepts in the ASCII range. *)
Definition isspace (c : ascii) : bool :=
  let n := nat_of_ascii c in
  ((9 <=? n) && (n <=? 13) || (28 <=? n) && (n <=? 32))%nat.

Fixpoint lstrip (s : string) : string :=
  match s with
  | String c r => if isspace c then lstrip r else s
  | EmptyString => EmptyString
  end.

Fixpoint rstrip (s : string) : string :=
  match s with
  | String c r =>
      match rstrip r with
      | EmptyString => if isspace c then EmptyString else String c EmptyString
      | r' => String c r'
      end
  | EmptyString => EmptyString
  end.

(** [s.strip()] *)
Definition strip (s : string) : string := rstrip (lstrip s).

(** [s.split(sep)] for a one-character separator: one more piece than there
    are separators, never an empty list. *)
Fixpoint split (sep : ascii) (s : string) : list string :=
  match s with
  | EmptyString => [EmptyString]
  | String c r =>
      if Ascii.eqb c sep then EmptyString :: split sep r
      else match split sep r with
           | h :: t => String c h :: t
           | [] => [String c EmptyString]
           end
  end.

Definition lower_char (c : ascii) : ascii :=
  let n := nat_of_ascii c in
  if ((65 <=? n) && (n <=? 90))%nat then ascii_of_nat (n + 32) else c.

(** [s.lower()] *)
Fixpoint lower (s : string) : string :=
  match s with
  | String c r => String (lower_char c) (lower r)
  | EmptyString => EmptyString
  end.

(** Truth value of an [Optional[str]]. *)
Definition opt_truthy (s : option string) : bool :=
  match s with
  | Some (String _ _) => true
  | _ => false
  end.

End PyStr.

(** Truth value of an [Optional[float]]. *)
Definition ts_truthy (ts : option float) : bool :=
  match ts with
  | Some x => PyFloat.truthy x
  | None => false
  end.

(** ** Configuration read from the environment at import time *)

Record Config : Type := mkConfig {
  AGENT_RESPONSE_MODE : string;
  AGENT_SCRIPTED_LINES : list string;
  AGENT_BARGE_IN : bool
}.

(** [os.getenv(name, default)] for a variable whose value, when set, is
    [v]. *)
Definition getenv (v : option string) (default : string) : string :=
  match v with
  | Some s => s
  | None => default
  end.

(** The three assignments of the module, from the values of the variables
    [AGENT_RESPONSE_MODE], [AGENT_SCRIPTED_LINES] and [AGENT_BARGE_IN]. *)
Definition load_config (mode lines barge : option string) : Config :=
  {| AGENT_RESPONSE_MODE := getenv mode "echo";
     AGENT_SCRIPTED_LINES :=
       PyStr.split "|" (getenv lines "Hello.|How can I help?|Goodbye.");
     AGENT_BARGE_IN := String.eqb (PyStr.lower (getenv barge "true")) "true" |}.

(** ** VADDetector

    [webrtcvad.Vad.is_speech] is an external classifier: it is a parameter
    [is_speech] of the model, a function of the frame that answers speech
    or silence or raises. *)

Module VADDetector.

Record t : Type := mk {
  active : bool;
  speech_start_ts : option float
}.

Definition init : t := mk false None.

Definition process (vad_is_speech : bytes → result bool)
    (self : t) (frame : bytes) (ts : float) : result (t * option float) :=
  do is_speech <- vad_is_speech frame;
  if is_speech && negb (active self) then
    ok (mk true (Some ts), Some ts)
  else if negb is_speech && active self then
    ok (mk false (speech_start_ts self), None)
  else ok (self, None).

End VADDetector.

(** ** STTStream *)

Module STTStream.

Record t : Type := mk {
  first_partial_ts : option float;
  final_transcript : option string;
  _final : bool;
  _closed : bool
}.

Definition init : t := mk None None false false.

(** [simulate_stt] between its two sleeps: the first partial is stamped
    once. *)
Definition simulate_stt_partial (now : float) (self : t) : t :=
  if negb (ts_truthy (first_partial_ts self))
  then mk (Some now) (final_transcript self) (_final self) (_closed self)
  else self.

(** [simulate_stt] after its second sleep: the final transcript is stored
    and the event set. *)
Definition simulate_stt_final (transcript_accumulator : list string) (self : t) : t :=
  mk (first_partial_ts self)
     (Some (PyStr.strip (PyStr.join " " transcript_accumulator)))
     true (_closed self).

(** [wait_final]: [_final self] stands for "the event is set before
    the timeout elapses". The stream is local to the task that awaits it,
    so nothing sets the event while the task waits: the await returns the
    transcript when the event is already set and times out, returning
    [None], when it is not. *)
Definition wait_final (self : t) : option string :=
  if _final self then final_transcript self else None.

Definition close (self : t) : t :=
  mk (first_partial_ts self) (final_transcript self) (_final self) true.

End STTStream.

(** ** TTSStream *)

Module TTSStream.

Record t : Type := mk {
  first_audio_ts : option float;
  _cancel : bool
}.

Definition init : t := mk None false.

Definition cancel (self : t) : t := mk (first_audio_ts self) true.

(** [int(min(2.5, 0.06 * len(text)) * 1000 / FRAME_MS)] *)
Definition total_frames (text : string) : result Z :=
  let duration_sec :=
    PyFloat.min (PyFloat.decimal 25 10)
                (PyFloat.mul (PyFloat.decimal 6 100) (PyFloat.of_Z (PyStr.len text))) in
  PyFloat.to_int
    (PyFloat.div (PyFloat.mul duration_sec (PyFloat.of_Z 1000)) (PyFloat.of_Z FRAME_MS)).

(** Where the generator [stream_tts(text)] is suspended: not started yet;
    at its [yield], having produced frame [i] of [total]; in the sleep that
    follows frame [i]; finished. *)
Inductive gen_pc : Type :=
| GenCreated (text : string)
| GenYielded (i total : Z)
| GenSleeping (i total : Z)
| GenDone.

(** One pass through the head of the [for] loop at index [i]: leave the
    loop when the range is exhausted or the flag is set, else stamp the
    first frame and yield. The boolean says whether a frame is yielded.
    The frame's samples (a 440 Hz tone) are not modelled: no code reads
    them. *)
Definition loop_head (now : float) (self : t) (i total : Z) : t * gen_pc * bool :=
  if i <? total then
    if _cancel self then (self, GenDone, false)
    else
      let self' := match first_audio_ts self with
                   | None => mk (Some now) (_cancel self)
                   | Some _ => self
                   end in
      (self', GenYielded i total, true)
  else (self, GenDone, false).

(** Run the generator from where it is suspended to its next suspension. *)
Definition resume (now : float) (self : t) (pc : gen_pc) : result (t * gen_pc * bool) :=
  match pc with
  | GenCreated text =>
      do total <- total_frames text;
      ok (loop_head now self 0 total)
  | GenYielded i total => ok (self, GenSleeping i total, false)
  | GenSleeping i total => ok (loop_head now self (i + 1) total)
  | GenDone => ok (self, GenDone, false)
  end.

End TTSStream.

(** ** AgentSession: the fields and the synchronous methods *)

Module AgentSession.

Record t : Type := mk {
  room : string;
  identity : string;
  vad : VADDetector.t;
  current_tts : option nat;
  tts_task : option nat;
  active_turn : option LatencyTurn.t;
  script_index : Z
}.

Definition init (room identity : string) : t :=
  mk room identity VADDetector.init None None None 0.

Definition set_vad (v : VADDetector.t) (self : t) : t :=
  mk (room self) (identity self) v (current_tts self) (tts_task self)
     (active_turn self) (script_index self).

Definition set_active_turn (turn : option LatencyTurn.t) (self : t) : t :=
  mk (room self) (identity self) (vad self) (current_tts self) (tts_task self)
     turn (script_index self).

Definition set_tts (stream task : option nat) (self : t) : t :=
  mk (room self) (identity self) (vad self) stream task
     (active_turn self) (script_index self).

Definition next_script_line (cfg : Config) (self : t) : result (string * t) :=
  let n := Z.of_nat (length (AGENT_SCRIPTED_LINES cfg)) in
  if n =? 0 then raise ZeroDivisionError
  else
    match AGENT_SCRIPTED_LINES cfg !! Z.to_nat (script_index self `mod` n) with
    | Some line =>
        ok (line,
            mk (room self) (identity self) (vad self) (current_tts self)
               (tts_task self) (active_turn self) (script_index self + 1))
    | None => raise IndexError
    end.

Definition _build_reply (cfg : Config) (transcript : string) (self : t)
    : result (string * t) :=
  if String.eqb (AGENT_RESPONSE_MODE cfg) "echo"
  then ok (("You said: " ++ transcript ++ ". Nice!")%string, self)
  else next_script_line cfg self.

Definition _frame_energy (pcm_frame : bytes) : string := "audio".

End AgentSession.

(** ** The session with its tasks

    The worker is one asyncio event loop: between two suspension points a
    task runs alone. The world below is the session object together with
    every task it has created, each at the suspension point where it
    waits, the [TTSStream] objects (shared by the session, which may
    cancel one, and the task that iterates over it) and the events handed
    to [post_metrics]. A step runs one task from its suspension point to
    the next; which task runs next is the scheduler's choice, and every
    choice is a step of the model. *)

(** Where a [_run_stt_collect] task waits: created and not yet run; in the
    first or the second sleep of [simulate_stt]; in [wait_final]; done,
    with the exception that ended it if any. *)
Inductive stt_pc : Type :=
| SttCreated (transcript_accum : list string)
| SttPartialSleep (transcript_accum : list string) (stt : STTStream.t)
| SttFinalSleep (transcript_accum : list string) (stt : STTStream.t)
| SttAwaitFinal (stt : STTStream.t)
| SttDone (exc : option exn).

(** Where a [run()] task of [_start_tts] waits: created and not yet run; in
    [post_metrics]; in [asyncio.sleep(0)]; in the generator's sleep, waiting
    for the next chunk; done. *)
Inductive run_pc : Type :=
| RunCreated
| RunPosting
| RunSleep0
| RunAwaitNext
| RunDone (exc : option exn).

(** A [TTSStream] with the [run()] task that iterates over it: the stream
    object, the generator's position, the local [first_chunk] and the
    task's position. *)
Record TtsTask : Type := mkTtsTask {
  tts_stream : TTSStream.t;
  tts_gen : TTSStream.gen_pc;
  tts_first_chunk : bool;
  tts_pc : run_pc
}.

(** An event handed to [post_metrics]. [em_event] is the posted dict; the
    other fields are bookkeeping of the model: the task that posted, the
    number of the turn that was active, the loop index of the chunk being
    handled, and the [LatencyTurn] as it was. *)
Record Emission : Type := mkEmission {
  em_task : nat;
  em_turn_no : nat;
  em_chunk : Z;
  em_turn : LatencyTurn.t;
  em_event : gmap string json
}.

(** [turn_no] counts the [LatencyTurn] objects created so far (bookkeeping
    of the model: the active turn is always the latest). *)
Record World : Type := mkWorld {
  session : AgentSession.t;
  stt_tasks : list stt_pc;
  tts_tasks : list TtsTask;
  metrics : list Emission;
  turn_no : nat
}.

Definition World_init (room identity : string) : World :=
  mkWorld (AgentSession.init room identity) [] [] [] 0.

Definition set_session (s : AgentSession.t) (w : World) : World :=
  mkWorld s (stt_tasks w) (tts_tasks w) (metrics w) (turn_no w).

Definition set_stt_task (id : nat) (pc : stt_pc) (w : World) : World :=
  mkWorld (session w) (<[id := pc]> (stt_tasks w)) (tts_tasks w) (metrics w) (turn_no w).

Definition set_tts_task (id : nat) (task : TtsTask) (w : World) : World :=
  mkWorld (session w) (stt_tasks w) (<[id := task]> (tts_tasks w)) (metrics w) (turn_no w).

(** [tts_task.done()] *)
Definition task_done (w : World) (id : nat) : bool :=
  match tts_tasks w !! id with
  | Some task => match tts_pc task with RunDone _ => true | _ => false end
  | None => true
  end.

(** [self.current_tts.cancel()] *)
Definition cancel_stream (id : nat) (w : World) : World :=
  match tts_tasks w !! id with
  | Some task =>
      set_tts_task id
        (mkTtsTask (TTSStream.cancel (tts_stream task)) (tts_gen task)
                   (tts_first_chunk task) (tts_pc task)) w
  | None => w
  end.

Section Agent.

Context (cfg : Config) (is_speech : bytes → result bool).

(** [handle_audio_frame], with [ts] the reading of [time.time()]. It has no
    suspension point: the task it creates runs later. The result is the
    world the call leaves and the exception it raises to its caller, if
    any; the classifier is called before anything is assigned, so a call
    that raises leaves the world as it found it. *)
Definition handle_audio_frame (pcm_frame : bytes) (ts : float) (w : World)
    : World * option exn :=
  match VADDetector.process is_speech (AgentSession.vad (session w)) pcm_frame ts with
  | inl e => (w, Some e)
  | inr (vad', speech_start) =>
      let w1 := set_session (AgentSession.set_vad vad' (session w)) w in
      if ts_truthy speech_start then
        let w2 :=
          match AgentSession.current_tts (session w1), AgentSession.tts_task (session w1) with
          | Some stream, Some task =>
              if AGENT_BARGE_IN cfg && negb (task_done w1 task)
              then cancel_stream stream w1
              else w1
          | _, _ => w1
          end in
        let turn := LatencyTurn.mk speech_start None None None None None in
        (mkWorld (AgentSession.set_active_turn (Some turn) (session w2))
                 (stt_tasks w2 ++ [SttCreated [AgentSession._frame_energy pcm_frame]])
                 (tts_tasks w2) (metrics w2) (S (turn_no w2)),
         None)
      else (w1, None)
  end.

(** [_start_tts]: a fresh stream and a task for [run()], both remembered by
    the session. *)
Definition _start_tts (text : string) (w : World) : World :=
  let id := length (tts_tasks w) in
  mkWorld (AgentSession.set_tts (Some id) (Some id) (session w))
          (stt_tasks w)
          (tts_tasks w ++ [mkTtsTask TTSStream.init (TTSStream.GenCreated text) true RunCreated])
          (metrics w) (turn_no w).

(** The part of [_run_stt_collect] that follows [wait_final]; [now1] and
    [now2] are its two readings of the clock. *)
Definition stt_collect_finish (stt : STTStream.t) (now1 now2 : float) (w : World)
    : World * option exn :=
  let final_text := STTStream.wait_final stt in
  match final_text, AgentSession.active_turn (session w) with
  | Some text, Some turn =>
      if PyStr.opt_truthy final_text then
        let turn1 :=
          LatencyTurn.mk (LatencyTurn.speech_start_ts turn)
                         (LatencyTurn.stt_first_partial_ts turn)
                         (Some now1)
                         (LatencyTurn.agent_decision_ts turn)
                         (LatencyTurn.tts_first_byte_ts turn)
                         (LatencyTurn.playback_start_ts turn) in
        let s1 := AgentSession.set_active_turn (Some turn1) (session w) in
        match AgentSession._build_reply cfg text s1 with
        | inl e => (set_session s1 w, Some e)
        | inr (reply, s2) =>
            let turn2 :=
              LatencyTurn.mk (LatencyTurn.speech_start_ts turn1)
                             (LatencyTurn.stt_first_partial_ts turn1)
                             (LatencyTurn.stt_final_ts turn1)
                             (Some now2)
                             (LatencyTurn.tts_first_byte_ts turn1)
                             (LatencyTurn.playback_start_ts turn1) in
            let s3 := AgentSession.set_active_turn (Some turn2) s2 in
            (_start_tts reply (set_session s3 w), None)
        end
      else (w, None)
  | _, _ => (w, None)
  end.

(** One stretch of the [_run_stt_collect] task [id]. *)
Definition stt_step (id : nat) (now1 now2 : float) (w : World) : option World :=
  match stt_tasks w !! id with
  | Some (SttCreated accum) =>
      Some (set_stt_task id (SttPartialSleep accum STTStream.init) w)
  | Some (SttPartialSleep accum stt) =>
      Some (set_stt_task id (SttFinalSleep accum (STTStream.simulate_stt_partial now1 stt)) w)
  | Some (SttFinalSleep accum stt) =>
      let stt' := STTStream.simulate_stt_final accum stt in
      let w1 :=
        match AgentSession.active_turn (session w) with
        | Some turn =>
            if ts_truthy (STTStream.first_partial_ts stt')
               && negb (ts_truthy (LatencyTurn.stt_first_partial_ts turn))
            then
              set_session
                (AgentSession.set_active_turn
                   (Some (LatencyTurn.mk (LatencyTurn.speech_start_ts turn)
                                         (STTStream.first_partial_ts stt')
                                         (LatencyTurn.stt_final_ts turn)
                                         (LatencyTurn.agent_decision_ts turn)
                                         (LatencyTurn.tts_first_byte_ts turn)
                                         (LatencyTurn.playback_start_ts turn)))
                   (session w)) w
            else w
        | None => w
        end in
      Some (set_stt_task id (SttAwaitFinal stt') w1)
  | Some (SttAwaitFinal stt) =>
      let '(w1, exc) := stt_collect_finish stt now1 now2 w in
      Some (set_stt_task id (SttDone exc) w1)
  | Some (SttDone _) | None => None
  end.

(** The dict posted for a turn: the four literal entries, then the entries
    of [to_dict]. [now] is the reading behind ["timestamp"]. *)
Definition latency_event (s : AgentSession.t) (turn : LatencyTurn.t) (now : float)
    : result (gmap string json) :=
  do stamp <- PyFloat.to_int (PyFloat.mul now (PyFloat.of_Z 1000));
  do d <- LatencyTurn.to_dict turn;
  ok (d ∪ <["timestamp" := JInt stamp]>
           (<["identity" := JStr (AgentSession.identity s)]>
            (<["room" := JStr (AgentSession.room s)]>
             (<["type" := JStr "latency_turn"]> ∅)))).

(** The body of the [async for] loop of [run()] for chunk [i], up to its
    next suspension point. *)
Definition consume_chunk (id : nat) (i : Z) (now : float) (task : TtsTask) (w : World)
    : World :=
  match AgentSession.active_turn (session w) with
  | Some turn =>
      if tts_first_chunk task then
        let stamp := TTSStream.first_audio_ts (tts_stream task) in
        let turn' :=
          LatencyTurn.mk (LatencyTurn.speech_start_ts turn)
                         (LatencyTurn.stt_first_partial_ts turn)
                         (LatencyTurn.stt_final_ts turn)
                         (LatencyTurn.agent_decision_ts turn)
                         stamp stamp in
        let s' := AgentSession.set_active_turn (Some turn') (session w) in
        match latency_event s' turn' now with
        | inl e =>
            set_tts_task id
              (mkTtsTask (tts_stream task) (tts_gen task) (tts_first_chunk task)
                         (RunDone (Some e)))
              (set_session s' w)
        | inr event =>
            mkWorld s' (stt_tasks w)
                    (<[id := mkTtsTask (tts_stream task) (tts_gen task)
                                       (tts_first_chunk task) RunPosting]> (tts_tasks w))
                    (metrics w ++ [mkEmission id (turn_no w) i turn' event])
                    (turn_no w)
        end
      else
        set_tts_task id
          (mkTtsTask (tts_stream task) (tts_gen task) (tts_first_chunk task) RunSleep0) w
  | None =>
      set_tts_task id
        (mkTtsTask (tts_stream task) (tts_gen task) (tts_first_chunk task) RunSleep0) w
  end.

(** One stretch of the [run()] task [id]: out of [post_metrics], or asking
    the generator for its next move and handling the chunk it yields.
    [now1] is the reading the generator may take, [now2] the one of the
    event's ["timestamp"]. *)
Definition tts_step (id : nat) (now1 now2 : float) (w : World) : option World :=
  match tts_tasks w !! id with
  | Some task =>
      match tts_pc task with
      | RunDone _ => None
      | RunPosting =>
          Some (set_tts_task id
                  (mkTtsTask (tts_stream task) (tts_gen task) false RunSleep0) w)
      | RunCreated | RunSleep0 | RunAwaitNext =>
          match TTSStream.resume now1 (tts_stream task) (tts_gen task) with
          | inl e =>
              Some (set_tts_task id
                      (mkTtsTask (tts_stream task) TTSStream.GenDone
                                 (tts_first_chunk task) (RunDone (Some e))) w)
          | inr (stream', gen', yielded) =>
              let task' := mkTtsTask stream' gen' (tts_first_chunk task) RunAwaitNext in
              match gen' with
              | TTSStream.GenYielded i _ => Some (consume_chunk id i now2 task' w)
              | TTSStream.GenDone =>
                  Some (set_tts_task id
                          (mkTtsTask stream' gen' (tts_first_chunk task) (RunDone None)) w)
              | _ => Some (set_tts_task id task' w)
              end
          end
      end
  | None => None
  end.

(** What the scheduler may run next: the frame source handing a frame to
    the session, a transcription task, or a synthesis task. *)
Inductive label : Type :=
| Frame (pcm_frame : bytes) (ts : float)
| StepStt (id : nat) (now1 now2 : float)
| StepTts (id : nat) (now1 now2 : float).

(** A step is [None] when the task named is not there to run, or when the
    frame handler raises (the frame source stops there). *)
Definition step (l : label) (w : World) : option World :=
  match l with
  | Frame pcm ts =>
      match handle_audio_frame pcm ts w with
      | (w', None) => Some w'
      | (_, Some _) => None
      end
  | StepStt id now1 now2 => stt_step id now1 now2 w
  | StepTts id now1 now2 => tts_step id now1 now2 w
  end.

Fixpoint exec (tr : list label) (w : World) : option World :=
  match tr with
  | [] => Some w
  | l :: tr' =>
      match step l w with
      | Some w' => exec tr' w'
      | None => None
      end
  end.

End Agent.

(** ** The latency collector

    The module-level list [_events] is the state; each request handler is
    a function of the buffer before the request (and of the reading
    [now_ms] of the clock) to the buffer after it. The handlers run under
    [_lock], one at a time. *)

Module Collector.

(** [e.get(key, default)]; only a dict has [get]. *)
Definition get (e : json) (key : string) (default : json) : result json :=
  match e with
  | JObj m => ok (match m !! key with Some v => v | None => default end)
  | _ => raise AttributeError
  end.

(** [v >= cutoff] for an int [cutoff]: defined on numbers (a bool is an
    int), a [TypeError] on anything else. *)
Definition ge_int (v : json) (cutoff : Z) : result bool :=
  match v with
  | JInt z => ok (cutoff <=? z)
  | JBool b => ok (cutoff <=? (if b then 1 else 0))
  | JFloat f => ok (PyFloat.geb_Z f cutoff)
  | _ => raise TypeError
  end.

(** [e.get("speech_start_ms") or e.get("timestamp", 0)] *)
Definition retention_key (e : json) : result json :=
  do a <- get e "speech_start_ms" JNull;
  if json_truthy a then ok a else get e "timestamp" (JInt 0).

(** The condition of the comprehension in [_prune]. *)
Definition keep (cutoff : Z) (e : json) : result bool :=
  do k <- retention_key e;
  ge_int k cutoff.

(** The list comprehension: the first event whose condition raises ends
    it. *)
Fixpoint comprehension (cutoff : Z) (events : list json) : result (list json) :=
  match events with
  | [] => ok []
  | e :: rest =>
      do b <- keep cutoff e;
      do rest' <- comprehension cutoff rest;
      ok (if b then e :: rest' else rest')
  end.

Section Handlers.

Context (WINDOW_SECONDS : Z).

(** [_prune]: the new value of [_events], which is assigned only when the
    comprehension has run to its end. *)
Definition _prune (now_ms : Z) (_events : list json) : result (list json) :=
  let cutoff := now_ms - WINDOW_SECONDS * 1000 in
  comprehension cutoff _events.

Inductive response : Type :=
| Status200
| Status400
| Status500 (e : exn).

(** [POST /ingest]; [payload] is [None] when the body is not JSON. The
    append happens before the pruning and stays when the pruning raises. *)
Definition ingest (payload : option json) (now_ms : Z) (_events : list json)
    : response * list json :=
  match payload with
  | None => (Status400, _events)
  | Some p =>
      let appended := _events ++ [p] in
      match _prune now_ms appended with
      | inr pruned => (Status200, pruned)
      | inl e => (Status500 e, appended)
      end
  end.

(** [GET /summary], as far as the buffer goes: [Some e] when [_prune]
    raises [e]. The statistics of the response are computed afterwards
    from the stored buffer, do not change it, and are not modelled. *)
Definition summary (now_ms : Z) (_events : list json) : option exn * list json :=
  match _prune now_ms _events with
  | inr pruned => (None, pruned)
  | inl e => (Some e, _events)
  end.

Definition MAX_EVENTS_RETURN : nat := 200.

(** [GET /events]: the response lists the last [MAX_EVENTS_RETURN] events
    of the pruned buffer. *)
Definition events (now_ms : Z) (_events : list json)
    : result (list json) * list json :=
  match _prune now_ms _events with
  | inr pruned =>
      (ok (drop (length pruned - MAX_EVENTS_RETURN)%nat pruned), pruned)
  | inl e => (raise e, _events)
  end.

(** A request to the collector. *)
Inductive request : Type :=
| Ingest (payload : option json)
| Summary
| Events.

(** The buffer after a request, and whether the request was answered
    without a server error. *)
Definition handle (r : request) (now_ms : Z) (_events : list json) : bool * list json :=
  match r with
  | Ingest payload =>
      match ingest payload now_ms _events with
      | (Status500 _, b) => (false, b)
      | (_, b) => (true, b)
      end
  | Summary =>
      match summary now_ms _events with
      | (Some _, b) => (false, b)
      | (None, b) => (true, b)
      end
  | Events =>
      match events now_ms _events with
      | (inl _, b) => (false, b)
      | (inr _, b) => (true, b)
      end
  end.

End Handlers.

End Collector.

(** ** Notions used in the statements *)

(** Feeding a sequence of frames, each with the clock reading of its
    arrival, to one detector: the list of what [process] returns. *)
Fixpoint feed (vad_is_speech : bytes → result bool) (vad : VADDetector.t)
    (frames : list (bytes * float)) : result (list (option float)) :=
  match frames with
  | [] => ok []
  | (frame, ts) :: rest =>
      do r <- VADDetector.process vad_is_speech vad frame ts;
      do outs <- feed vad_is_speech r.1 rest;
      ok (r.2 :: outs)
  end.

(** The number of silence-to-speech edges of a classification sequence that
    follows a frame classified [prev]. *)
Fixpoint rising_edges (prev : bool) (bs : list bool) : nat :=
  match bs with
  | [] => 0
  | b :: rest => ((if b && negb prev then 1 else 0) + rising_edges b rest)%nat
  end.

(** What [feed] is to return when the frames classify as [bs] and the
    frame before them classified [prev]: the timestamp on a frame that is
    speech after silence, nothing elsewhere. *)
Fixpoint feed_outputs (prev : bool) (frames : list (bytes * float)) (bs : list bool)
    : list (option float) :=
  match frames, bs with
  | (_, ts) :: rest, b :: bs' =>
      (if b && negb prev then Some ts else None) :: feed_outputs b rest bs'
  | _, _ => []
  end.






(** The replies [_build_reply] gives to a sequence of transcripts, the
    session threaded through. *)
Fixpoint replies (cfg : Config) (transcripts : list string) (s : AgentSession.t)
    : result (list string) :=
  match transcripts with
  | [] => ok []
  | transcript :: rest =>
      do r <- AgentSession._build_reply cfg transcript s;
      do rs <- replies cfg rest r.2;
      ok (r.1 :: rs)
  end.

(** What happens to a [stream_tts] generator from outside: its consumer (or
    its timer) resumes it, with the clock reading it may take, or somebody
    calls [cancel()] on its stream. *)
Inductive gen_event : Type :=
| GenResume (now : float)
| GenCancel.

(** The generator driven by a sequence of events: the stream and the
    position it ends in, and the number of frames it yields on the way. A
    generator that raises is finished. *)
Fixpoint drive (evs : list gen_event) (self : TTSStream.t) (pc : TTSStream.gen_pc)
    : TTSStream.t * TTSStream.gen_pc * nat :=
  match evs with
  | [] => (self, pc, 0%nat)
  | GenCancel :: rest => drive rest (TTSStream.cancel self) pc
  | GenResume now :: rest =>
      match TTSStream.resume now self pc with
      | inl _ => (self, TTSStream.GenDone, 0%nat)
      | inr (self', pc', yielded) =>
          let r := drive rest self' pc' in
          (r.1.1, r.1.2, ((if yielded then 1 else 0) + r.2)%nat)
      end
  end.

Definition is_resume (ev : gen_event) : bool :=
  match ev with
  | GenResume _ => true
  | GenCancel => false
  end.

(** A classifier for the examples: it raises on a frame that is not 640
    bytes long and calls a frame speech when its first byte is not zero. *)
Definition demo_vad (frame : bytes) : result bool :=
  if (length frame =? 640)%nat then
    ok (match frame with Byte.x00 :: _ => false | _ => true end)
  else raise VadError.

Definition speech_frame : bytes := repeat Byte.x01 640.
Definition silence_frame : bytes := repeat Byte.x00 640.

(** The clock reading [k] hundredths of a second after 1710000000.00. *)
Definition at_cs (k : Z) : float := PyFloat.decimal (171000000000 + k) 100.

(** The configuration of the examples: nothing set in the environment
    (echo mode, the default script, barge-in enabled). *)
Definition demo_cfg : Config := load_config None None None.

Definition demo_world : World := World_init "dev-room" "agent-1".

(** One turn up to the first synthesized frame, then a frame of silence:
    the world in which the session is responding and the detector is
    inactive again. *)
Definition responding_trace : list label :=
  [Frame speech_frame (at_cs 0);
   StepStt 0 (at_cs 0) (at_cs 0); StepStt 0 (at_cs 5) (at_cs 5);
   StepStt 0 (at_cs 30) (at_cs 30); StepStt 0 (at_cs 30) (at_cs 30);
   StepTts 0 (at_cs 30) (at_cs 30);
   Frame silence_frame (at_cs 32)].

Definition responding_world : World :=
  default demo_world (exec demo_cfg demo_vad responding_trace demo_world).

(** *** Turns, clocks and runs of the session *)

(** [a <= b] on floats; false when either is a NaN. *)
Definition fle (a b : float) : Prop := PyFloat.leb a b = true.

#[global] Instance fle_dec : RelDecision fle.
Proof. intros a b. unfold fle. apply _. Defined.

(** The timestamps of a turn that are present, in the order of the
    pipeline. *)
Definition milestones (turn : LatencyTurn.t) : list float :=
  omap id [LatencyTurn.speech_start_ts turn; LatencyTurn.stt_first_partial_ts turn;
           LatencyTurn.stt_final_ts turn; LatencyTurn.agent_decision_ts turn;
           LatencyTurn.tts_first_byte_ts turn; LatencyTurn.playback_start_ts turn].

(** Every pair of present timestamps is in order, earlier ≤ later. *)
Definition monotonic (turn : LatencyTurn.t) : Prop :=
  StronglySorted fle (milestones turn).

(** The clock readings a run takes, in the order it takes them. *)
Definition label_readings (l : label) : list float :=
  match l with
  | Frame _ ts => [ts]
  | StepStt _ now1 now2 => [now1; now2]
  | StepTts _ now1 now2 => [now1; now2]
  end.

Definition readings (tr : list label) : list float := flat_map label_readings tr.

Definition stt_is_done (pc : stt_pc) : bool :=
  match pc with
  | SttDone _ => true
  | _ => false
  end.

Definition run_is_done (pc : run_pc) : bool :=
  match pc with
  | RunDone _ => true
  | _ => false
  end.

(** A synthesis task that will post nothing any more: it is done, or it is
    posting, or its [first_chunk] is already false. *)
Definition past_first_frame (task : TtsTask) : bool :=
  match tts_pc task with
  | RunDone _ | RunPosting => true
  | _ => negb (tts_first_chunk task)
  end.

(** No transcription task is in flight and every synthesis task is past
    its first frame or done. *)
Definition settled (w : World) : bool :=
  forallb stt_is_done (stt_tasks w) && forallb past_first_frame (tts_tasks w).

(** No task is in flight and none has ended with an exception. *)
Definition completed (w : World) : bool :=
  forallb (λ pc, match pc with SttDone None => true | _ => false end) (stt_tasks w)
  && forallb (λ task, match tts_pc task with RunDone None => true | _ => false end)
             (tts_tasks w).

(** The events of a world that were posted while turn number [k] was the
    active one. *)
Definition emissions_of_turn (k : nat) (w : World) : list Emission :=
  filter (λ e, em_turn_no e = k) (metrics w).

(** Two speech segments 80 ms apart, the second arriving while the first
    turn's transcription is still running: frames at 0, 60 (silence) and
    80 ms; the first transcription's partial at 50 ms and final at 300 ms,
    the second's at 130 ms and 380 ms; each final starts a synthesis,
    which yields its first frame at once. Then both syntheses run to their
    ends (65 frames each), undisturbed. *)
Definition overlapping_turns_trace : list label :=
  [Frame speech_frame (at_cs 0);
   StepStt 0 (at_cs 0) (at_cs 0); StepStt 0 (at_cs 5) (at_cs 5);
   Frame silence_frame (at_cs 6);
   Frame speech_frame (at_cs 8);
   StepStt 1 (at_cs 8) (at_cs 8); StepStt 1 (at_cs 13) (at_cs 13);
   StepStt 0 (at_cs 30) (at_cs 30); StepStt 0 (at_cs 30) (at_cs 30);
   StepTts 0 (at_cs 30) (at_cs 30);
   StepStt 1 (at_cs 38) (at_cs 38); StepStt 1 (at_cs 38) (at_cs 38);
   StepTts 1 (at_cs 38) (at_cs 38)]
  ++ repeat (StepTts 0 (at_cs 40) (at_cs 40)) 131
  ++ repeat (StepTts 1 (at_cs 40) (at_cs 40)) 131.

(** A barge-in, from [responding_world]: a speech frame at 340 ms cancels
    the synthesis of turn 1, which was past its first frame and now ends at
    its next check, and opens turn 2, whose transcription and synthesis
    follow. [barge_in_prefix] stops at the first frame of the new
    synthesis, [barge_in_trace] runs that synthesis to its end. *)
Definition barge_in_prefix : list label :=
  [Frame speech_frame (at_cs 34);
   StepTts 0 (at_cs 34) (at_cs 34);
   StepStt 1 (at_cs 34) (at_cs 34);
   StepTts 0 (at_cs 34) (at_cs 34);
   StepTts 0 (at_cs 36) (at_cs 36);
   StepStt 1 (at_cs 39) (at_cs 39);
   Frame speech_frame (at_cs 40);
   StepStt 1 (at_cs 64) (at_cs 64); StepStt 1 (at_cs 64) (at_cs 65);
   StepTts 1 (at_cs 65) (at_cs 65)].

Definition barge_in_trace : list label :=
  barge_in_prefix ++ repeat (StepTts 1 (at_cs 66) (at_cs 66)) 131.

(** *** The course of a turn that runs alone

    The worlds a session goes through when it starts settled (world [w0])
    and a single turn is opened: before the speech start; while the turn's
    transcription task is pending; while its synthesis task has not yet
    handled a first frame; and after that frame. The synthesis tasks of
    earlier turns, [olds], may still be running to their ends. [fut] lists
    the clock readings still to come and [R] is the order the readings
    are assumed to come in. *)

(** The text the session replies with to the transcript of one frame, read
    from any session that has the script index of [w0]. *)
Definition reply_text (cfg : Config) (w0 : World) (text : string) : Prop :=
  ∃ s s1, AgentSession.script_index s = AgentSession.script_index (session w0)
          ∧ AgentSession._build_reply cfg "audio" s = ok (text, s1).

(** The synthesis tasks of [w0] as they may have become: as many, each
    still past its first frame. *)
Definition old_tasks (w0 : World) (olds : list TtsTask) : Prop :=
  length olds = length (tts_tasks w0)
  ∧ Forall (λ task, past_first_frame task = true) olds.

(** A pending transcription task, the turn as it is at that point, and the
    timestamp the task's stream holds that is not yet in the turn. *)
Inductive stt_shape : stt_pc → LatencyTurn.t → list float → Prop :=
| ShCreated ts0 :
    stt_shape (SttCreated ["audio"%string])
              (LatencyTurn.mk (Some ts0) None None None None None) []
| ShPartialSleep ts0 :
    stt_shape (SttPartialSleep ["audio"%string] STTStream.init)
              (LatencyTurn.mk (Some ts0) None None None None None) []
| ShFinalSleep ts0 p :
    stt_shape (SttFinalSleep ["audio"%string] (STTStream.mk (Some p) None false false))
              (LatencyTurn.mk (Some ts0) None None None None None) [p]
| ShAwaitFinal ts0 fp stt :
    STTStream.wait_final stt = Some "audio"%string →
    stt_shape (SttAwaitFinal stt)
              (LatencyTurn.mk (Some ts0) fp None None None None) [].

Inductive phase (cfg : Config) (R : relation float) (w0 : World) (fut : list float)
    : World → Prop :=
| PhIdle s olds :
    old_tasks w0 olds →
    AgentSession.script_index s = AgentSession.script_index (session w0) →
    StronglySorted R fut →
    phase cfg R w0 fut (mkWorld s (stt_tasks w0) olds (metrics w0) (turn_no w0))
| PhListening s olds pc turn extra :
    old_tasks w0 olds →
    AgentSession.active_turn s = Some turn →
    AgentSession.script_index s = AgentSession.script_index (session w0) →
    stt_shape pc turn extra →
    StronglySorted R (milestones turn ++ extra ++ fut) →
    phase cfg R w0 fut
      (mkWorld s (stt_tasks w0 ++ [pc]) olds (metrics w0) (S (turn_no w0)))
| PhSttFailed s olds e :
    old_tasks w0 olds →
    phase cfg R w0 fut
      (mkWorld s (stt_tasks w0 ++ [SttDone (Some e)]) olds (metrics w0)
               (S (turn_no w0)))
| PhDeciding s olds turn text :
    old_tasks w0 olds →
    AgentSession.active_turn s = Some turn →
    LatencyTurn.tts_first_byte_ts turn = None →
    LatencyTurn.playback_start_ts turn = None →
    reply_text cfg w0 text →
    StronglySorted R (milestones turn ++ fut) →
    phase cfg R w0 fut
      (mkWorld s (stt_tasks w0 ++ [SttDone None])
               (olds ++ [mkTtsTask TTSStream.init (TTSStream.GenCreated text) true RunCreated])
               (metrics w0) (S (turn_no w0)))
| PhTtsFailed s olds task e :
    old_tasks w0 olds →
    tts_pc task = RunDone (Some e) →
    phase cfg R w0 fut
      (mkWorld s (stt_tasks w0 ++ [SttDone None]) (olds ++ [task])
               (metrics w0) (S (turn_no w0)))
| PhSilent s olds task text total :
    old_tasks w0 olds →
    reply_text cfg w0 text →
    TTSStream.total_frames text = ok total →
    total ≤ 0 →
    tts_pc task = RunDone None →
    phase cfg R w0 fut
      (mkWorld s (stt_tasks w0 ++ [SttDone None]) (olds ++ [task])
               (metrics w0) (S (turn_no w0)))
| PhResponding s olds task e :
    old_tasks w0 olds →
    past_first_frame task = true →
    em_task e = length (tts_tasks w0) →
    em_turn_no e = S (turn_no w0) →
    em_chunk e = 0 →
    StronglySorted R (milestones (em_turn e)) →
    phase cfg R w0 fut
      (mkWorld s (stt_tasks w0 ++ [SttDone None]) (olds ++ [task])
               (metrics w0 ++ [e]) (S (turn_no w0))).

(** *** The retention bound of the collector, as a predicate on events *)

Definition is_number (v : json) : bool :=
  match v with
  | JInt _ | JBool _ | JFloat _ => true
  | _ => false
  end.

(** [v >= z] for a number [v]. *)
Definition number_ge (v : json) (z : Z) : bool :=
  match v with
  | JInt n => z <=? n
  | JBool b => z <=? (if b then 1 else 0)
  | JFloat f => PyFloat.geb_Z f z
  | _ => false
  end.

Definition null_or_zero (v : json) : bool :=
  match v with
  | JNull => true
  | JInt n => n =? 0
  | JBool b => negb b
  | JFloat (S754_zero _) => true
  | _ => false
  end.

(** The value the bound is about: [speech_start_ms], or [timestamp]
    (0 when absent) when [speech_start_ms] is null, absent or zero. *)
Definition retention_value (m : gmap string json) : json :=
  let timestamp := default (JInt 0) (m !! "timestamp") in
  match m !! "speech_start_ms" with
  | Some v => if null_or_zero v then timestamp else v
  | None => timestamp
  end.

(** The event is inside the window that starts at [cutoff]. *)
Definition in_window (cutoff : Z) (e : json) : bool :=
  match e with
  | JObj m => number_ge (retention_value m) cutoff
  | _ => false
  end.

(** An event of the expected schema, as far as pruning reads it: an object
    whose [speech_start_ms] is absent, null or a number and whose
    retention value is a number. *)
Definition well_formed_event (e : json) : Prop :=
  ∃ m, e = JObj m
       ∧ match m !! "speech_start_ms" with
         | Some JNull | None => True
         | Some v => is_number v = true
         end
       ∧ is_number (retention_value m) = true.

(** The events a request submits to pruning: the buffer, with the payload
    appended by an ingest. *)
Definition submitted (r : Collector.request) (_events : list json) : list json :=
  match r with
  | Collector.Ingest (Some p) => _events ++ [p]
  | _ => _events
  end.

(** * Properties *)

(** ** VADDetector *)

Section VadFacts.

Context (vad_is_speech : bytes → result bool).

Lemma process_classified vad frame ts b :
  vad_is_speech frame = ok b →
  ∃ vad', VADDetector.process vad_is_speech vad frame ts
          = ok (vad', if b && negb (VADDetector.active vad) then Some ts else None)
          ∧ VADDetector.active vad' = b.
Proof.
  intros Hb. unfold VADDetector.process. rewrite Hb. cbn.
  destruct b, (VADDetector.active vad) eqn:Ha; cbn; eauto.
Qed.

Lemma feed_classified frames : ∀ bs vad,
  Forall2 (λ fr b, vad_is_speech fr.1 = ok b) frames bs →
  feed vad_is_speech vad frames = ok (feed_outputs (VADDetector.active vad) frames bs).
Proof.
  induction frames as [|[frame ts] rest IH]; intros bs vad H.
  - by inversion H.
  - inversion H as [|? b ? bs' Hb Hrest]; subst. cbn in Hb.
    destruct (process_classified vad frame ts b Hb) as (vad' & Hp & Ha).
    cbn [feed]. rewrite Hp. cbn. rewrite (IH bs' vad' Hrest), Ha. reflexivity.
Qed.

Lemma feed_outputs_length frames : ∀ bs prev,
  length frames = length bs →
  length (feed_outputs prev frames bs) = length frames.
Proof.
  induction frames as [|[frame ts] rest IH]; intros [|b bs'] prev H; cbn in *; try done.
  f_equal. apply IH. lia.
Qed.

Lemma feed_outputs_lookup frames : ∀ bs prev k frame ts b,
  frames !! k = Some (frame, ts) → bs !! k = Some b →
  feed_outputs prev frames bs !! k
  = Some (if b && negb (match k with
                        | O => prev
                        | S j => default false (bs !! j)
                        end)
          then Some ts else None).
Proof.
  induction frames as [|[frame0 ts0] rest IH]; intros [|b0 bs'] prev k frame ts b Hf Hb;
    try done.
  destruct k as [|k].
  - cbn in *. by simplify_eq.
  - change (feed_outputs b0 rest bs' !! k = Some
      (if b && negb (default false ((b0 :: bs') !! k)) then Some ts else None)).
    rewrite (IH bs' b0 k frame ts b Hf Hb). destruct k; done.
Qed.

Lemma feed_outputs_events frames : ∀ bs prev,
  length frames = length bs →
  length (filter is_Some (feed_outputs prev frames bs)) = rising_edges prev bs.
Proof.
  induction frames as [|[frame ts] rest IH]; intros [|b bs'] prev H; try done.
  cbn [feed_outputs rising_edges]. cbn in H.
  destruct (b && negb prev).
  - rewrite filter_cons_True by eauto. cbn [length]. f_equal. apply IH. lia.
  - rewrite filter_cons_False by (intros [? ?]; done). apply IH. lia.
Qed.

(** C3. For any sequence of frames fed to one detector, each of which the
    classifier classifies (as [bs] says), [process] returns on every frame;
    on frame [k] it returns that frame's timestamp exactly when the frame
    is speech and either it is the first frame or frame [k-1] was silence,
    and returns [None] on every other frame; the number of timestamps
    returned is the number of silence-to-speech edges. *)
Theorem vad_rising_edge (frames : list (bytes * float)) (bs : list bool) :
  Forall2 (λ fr b, vad_is_speech fr.1 = ok b) frames bs →
  ∃ outs,
    feed vad_is_speech VADDetector.init frames = ok outs
    ∧ length outs = length frames
    ∧ (∀ k frame ts, frames !! k = Some (frame, ts) →
         (outs !! k = Some (Some ts) ∨ outs !! k = Some None)
         ∧ (outs !! k = Some (Some ts)
            ↔ bs !! k = Some true
              ∧ (k = 0%nat ∨ ∃ j, k = S j ∧ bs !! j = Some false)))
    ∧ length (filter is_Some outs) = rising_edges false bs.
Proof.
  intros H. pose proof (Forall2_length _ _ _ H) as Hlen.
  exists (feed_outputs false frames bs). split; [|split; [|split]].
  - by rewrite (feed_classified frames bs VADDetector.init H).
  - by apply feed_outputs_length.
  - intros k frame ts Hk.
    destruct (bs !! k) as [b|] eqn:Hb.
    2:{ apply lookup_ge_None in Hb. apply lookup_lt_Some in Hk. lia. }
    rewrite (feed_outputs_lookup frames bs false k frame ts b Hk Hb).
    destruct k as [|j].
    + destruct b; cbn; split; eauto; split; try (intros [? ?]; done); eauto; done.
    + destruct (bs !! j) as [c|] eqn:Hc.
      2:{ apply lookup_ge_None in Hc. apply lookup_lt_Some in Hb. lia. }
      destruct b, c; cbn; split; eauto; split; try done.
      * intros [? [|(j' & ? & ?)]]; [done|]. by simplify_eq.
      * intros _. split; [done|]. right. eauto.
      * intros [? ?]; done.
      * intros [? ?]; done.
  - by apply feed_outputs_events.
Qed.

End VadFacts.

(** The detector on speech, speech, silence, speech: two events. *)
Lemma vad_rising_edge_witness :
  ∃ outs,
    feed demo_vad VADDetector.init
      [(speech_frame, at_cs 0); (speech_frame, at_cs 2);
       (silence_frame, at_cs 4); (speech_frame, at_cs 6)] = ok outs
    ∧ length (filter is_Some outs) = 2%nat.
Proof.
  destruct (vad_rising_edge demo_vad
              [(speech_frame, at_cs 0); (speech_frame, at_cs 2);
               (silence_frame, at_cs 4); (speech_frame, at_cs 6)]
              [true; true; false; true]) as (outs & H1 & _ & _ & H4).
  - repeat constructor.
  - exists outs. split; [exact H1 | exact H4].
Defined.

(** ** LatencyTurn.to_dict *)







(** ** Scripted replies *)

Lemma split_nonempty sep s : PyStr.split sep s ≠ [].
Proof.
  destruct s as [|c r]; cbn; [done|].
  destruct (Ascii.eqb c sep); [done|]. by destruct (PyStr.split sep r).
Qed.

(** The script read from the environment is never empty. *)
Lemma load_config_script_nonempty mode lines barge :
  AGENT_SCRIPTED_LINES (load_config mode lines barge) ≠ [].
Proof. apply split_nonempty. Qed.

Lemma next_script_line_cycles cfg (s : AgentSession.t) :
  AGENT_SCRIPTED_LINES cfg ≠ [] →
  0 ≤ AgentSession.script_index s →
  ∃ line s',
    AgentSession.next_script_line cfg s = ok (line, s')
    ∧ AGENT_SCRIPTED_LINES cfg
        !! (Z.to_nat (AgentSession.script_index s) `mod` length (AGENT_SCRIPTED_LINES cfg))%nat
      = Some line
    ∧ AgentSession.script_index s' = AgentSession.script_index s + 1.
Proof.
  intros Hne Hidx. unfold AgentSession.next_script_line.
  set (lines := AGENT_SCRIPTED_LINES cfg) in *.
  assert (length lines ≠ 0%nat) as Hlen by (by destruct lines).
  destruct (Z.eqb_spec (Z.of_nat (length lines)) 0) as [|_]; [lia|].
  assert (Z.to_nat (AgentSession.script_index s `mod` Z.of_nat (length lines))
          = (Z.to_nat (AgentSession.script_index s) `mod` length lines)%nat) as ->.
  { rewrite <- (Z2Nat.id (AgentSession.script_index s)) at 1 by done.
    rewrite <- Nat2Z.inj_mod. apply Nat2Z.id. }
  destruct (lines !! _) as [line|] eqn:Hl.
  - eauto.
  - apply lookup_ge_None in Hl.
    pose proof (Nat.mod_upper_bound (Z.to_nat (AgentSession.script_index s)) _ Hlen). lia.
Qed.

Lemma replies_scripted cfg transcripts : ∀ s : AgentSession.t,
  AGENT_RESPONSE_MODE cfg ≠ "echo"%string →
  AGENT_SCRIPTED_LINES cfg ≠ [] →
  0 ≤ AgentSession.script_index s →
  ∃ rs, replies cfg transcripts s = ok rs
        ∧ length rs = length transcripts
        ∧ ∀ k, (k < length transcripts)%nat →
            rs !! k
            = AGENT_SCRIPTED_LINES cfg
                !! ((Z.to_nat (AgentSession.script_index s) + k)
                    `mod` length (AGENT_SCRIPTED_LINES cfg))%nat.
Proof.
  induction transcripts as [|t rest IH]; intros s Hmode Hne Hidx.
  - exists []. repeat split. intros k Hk. cbn in Hk. lia.
  - destruct (next_script_line_cycles cfg s Hne Hidx) as (line & s' & Hn & Hline & Hs').
    destruct (IH s' Hmode Hne ltac:(lia)) as (rs & Hrs & Hlen & Hk).
    exists (line :: rs). cbn [replies]. unfold AgentSession._build_reply.
    destruct (String.eqb_spec (AGENT_RESPONSE_MODE cfg) "echo") as [|_]; [done|].
    rewrite Hn. cbn [bind ok fst snd]. rewrite Hrs. cbn [bind ok].
    split; [done|]. split; [cbn; lia|].
    intros [|k] Hlt.
    + rewrite Nat.add_0_r. by rewrite Hline.
    + cbn [lookup list_lookup]. cbn in Hlt. rewrite Hk by lia.
      rewrite Hs'. do 2 f_equal. lia.
Qed.

(** C7. In scripted mode (any mode other than echo) with a non-empty
    script, in a session whose script index is 0 (a fresh session), the
    [n]-th reply, [n ≥ 1], is line [(n - 1) mod L] of the script of length
    [L]; with the script A, B, C, four replies in a row are A, B, C, A. *)
Theorem scripted_reply_cycle cfg (transcripts : list string) (s : AgentSession.t) (n : nat) :
  AGENT_RESPONSE_MODE cfg ≠ "echo"%string →
  AGENT_SCRIPTED_LINES cfg ≠ [] →
  AgentSession.script_index s = 0 →
  (1 ≤ n ≤ length transcripts)%nat →
  (∃ rs, replies cfg transcripts s = ok rs
         ∧ rs !! (n - 1)%nat
           = AGENT_SCRIPTED_LINES cfg
               !! ((n - 1) `mod` length (AGENT_SCRIPTED_LINES cfg))%nat
         ∧ is_Some (rs !! (n - 1)%nat))
  ∧ ∀ barge room identity t1 t2 t3 t4,
      replies (mkConfig "scripted" ["A"; "B"; "C"]%string barge) [t1; t2; t3; t4]
              (AgentSession.init room identity)
      = ok ["A"; "B"; "C"; "A"]%string.
Proof.
  intros Hmode Hne Hidx Hn. split; [|reflexivity].
  destruct (replies_scripted cfg transcripts s Hmode Hne ltac:(lia)) as (rs & Hrs & Hlen & Hk).
  exists rs. split; [done|].
  rewrite Hk by lia. rewrite Hidx. cbn [Z.to_nat Nat.add]. split; [done|].
  apply lookup_lt_is_Some.
  assert (length (AGENT_SCRIPTED_LINES cfg) ≠ 0%nat)
    by (by destruct (AGENT_SCRIPTED_LINES cfg)).
  by apply Nat.mod_upper_bound.
Qed.

(** The default script, scripted mode: the fifth reply is the second line. *)
Lemma scripted_reply_cycle_witness :
  ∃ rs, replies (load_config (Some "scripted"%string) None None)
                ["a"; "b"; "c"; "d"; "e"]%string
                (AgentSession.init "dev-room" "agent-1") = ok rs
        ∧ rs !! 4%nat = Some "How can I help?"%string.
Proof.
  destruct (scripted_reply_cycle (load_config (Some "scripted"%string) None None)
              ["a"; "b"; "c"; "d"; "e"]%string
              (AgentSession.init "dev-room" "agent-1") 5) as [(rs & Hrs & Hk & _) _].
  - vm_compute. discriminate.
  - vm_compute. discriminate.
  - reflexivity.
  - cbn. lia.
  - exists rs. split; [exact Hrs | exact Hk].
Defined.

(** ** TTSStream: cancellation *)

Lemma cancel_idempotent self : TTSStream.cancel (TTSStream.cancel self) = TTSStream.cancel self.
Proof. reflexivity. Qed.

Lemma loop_head_cancelled now self i total :
  TTSStream._cancel self = true →
  TTSStream.loop_head now self i total = (self, TTSStream.GenDone, false).
Proof.
  intros Hc. unfold TTSStream.loop_head. rewrite Hc. by destruct (i <? total).
Qed.

(** A cancelled stream stays cancelled, yields nothing when resumed, and
    its generator is either finished or, from its [yield], in the sleep
    before the check that finishes it. *)
Lemma resume_cancelled now self pc :
  TTSStream._cancel self = true →
  match TTSStream.resume now self pc with
  | inl _ => True
  | inr (self', pc', yielded) =>
      self' = self ∧ yielded = false
      ∧ match pc with
        | TTSStream.GenYielded i total => pc' = TTSStream.GenSleeping i total
        | _ => pc' = TTSStream.GenDone
        end
  end.
Proof.
  intros Hc. destruct pc as [text|i total|i total|]; cbn [TTSStream.resume]; try done.
  - destruct (TTSStream.total_frames text) as [e|total]; [done|].
    cbn [bind ok]. by rewrite loop_head_cancelled.
  - by rewrite loop_head_cancelled.
Qed.

Lemma drive_cancelled evs : ∀ self pc,
  TTSStream._cancel self = true →
  (drive evs self pc).2 = 0%nat
  ∧ TTSStream._cancel (drive evs self pc).1.1 = true.
Proof.
  induction evs as [|[now|] rest IH]; intros self pc Hc; cbn [drive].
  - done.
  - pose proof (resume_cancelled now self pc Hc) as Hr.
    destruct (TTSStream.resume now self pc) as [e|[[self' pc'] yielded]]; [done|].
    destruct Hr as (-> & -> & _). cbn [fst snd]. by apply IH.
  - by apply IH.
Qed.

Lemma drive_done evs : ∀ self,
  (drive evs self TTSStream.GenDone).1.2 = TTSStream.GenDone.
Proof.
  induction evs as [|[now|] rest IH]; intros self; cbn [drive TTSStream.resume ok fst snd];
    [done|apply IH..].
Qed.

Lemma drive_cancelled_sleeping evs : ∀ self i total,
  TTSStream._cancel self = true →
  (1 ≤ length (filter (λ ev, is_resume ev = true) evs))%nat →
  (drive evs self (TTSStream.GenSleeping i total)).1.2 = TTSStream.GenDone.
Proof.
  induction evs as [|[now|] rest IH]; intros self i total Hc Hn.
  - cbn in Hn. lia.
  - cbn [drive TTSStream.resume ok]. rewrite loop_head_cancelled by done.
    cbn [fst snd]. apply drive_done.
  - rewrite filter_cons_False in Hn by done. cbn [drive]. by apply IH.
Qed.

Lemma drive_cancelled_terminates evs : ∀ self pc,
  TTSStream._cancel self = true →
  (2 ≤ length (filter (λ ev, is_resume ev = true) evs))%nat →
  (drive evs self pc).1.2 = TTSStream.GenDone.
Proof.
  induction evs as [|[now|] rest IH]; intros self pc Hc Hn.
  - cbn in Hn. lia.
  - rewrite filter_cons_True in Hn by done. cbn [length] in Hn. cbn [drive].
    pose proof (resume_cancelled now self pc Hc) as Hr.
    destruct (TTSStream.resume now self pc) as [e|[[self' pc'] yielded]]; [done|].
    destruct Hr as (-> & -> & Hpc). cbn [fst snd].
    destruct pc as [text|i total|i total|]; subst pc'; try apply drive_done.
    apply drive_cancelled_sleeping; [done|lia].
  - rewrite filter_cons_False in Hn by done. cbn [drive]. by apply IH.
Qed.

(** C6. Whatever the position [pc] of a [stream_tts] generator, once
    [cancel()] has been called on its stream the generator yields at most
    one more frame (in fact none) however it is resumed and however often
    [cancel()] is called again, and it has terminated by the second time
    it is resumed; [cancel()] itself moves nothing: it leaves the
    generator where it is (a frame already yielded stays yielded) and
    calling it twice is calling it once. *)
Theorem tts_cancel_bounds_frames (self : TTSStream.t) (pc : TTSStream.gen_pc)
    (evs : list gen_event) :
  ((drive evs (TTSStream.cancel self) pc).2 ≤ 1)%nat
  ∧ ((2 ≤ length (filter (λ ev, is_resume ev = true) evs))%nat →
     (drive evs (TTSStream.cancel self) pc).1.2 = TTSStream.GenDone)
  ∧ drive [GenCancel] self pc = (TTSStream.cancel self, pc, 0%nat)
  ∧ TTSStream.cancel (TTSStream.cancel self) = TTSStream.cancel self
  ∧ drive (GenCancel :: evs) (TTSStream.cancel self) pc
    = drive evs (TTSStream.cancel self) pc.
Proof.
  split; [|split; [|repeat split]].
  - destruct (drive_cancelled evs (TTSStream.cancel self) pc eq_refl) as [-> _]. lia.
  - by apply drive_cancelled_terminates.
Qed.

(** Without [cancel()] the generator of a 3-frame text yields its 3
    frames; cancelled after the first, it yields that one only. *)
Example drive_three_frames :
  (drive [GenResume (at_cs 0); GenResume (at_cs 0); GenResume (at_cs 2);
          GenResume (at_cs 2); GenResume (at_cs 4); GenResume (at_cs 4);
          GenResume (at_cs 6)]
         TTSStream.init (TTSStream.GenCreated "a")).2 = 3%nat
  ∧ (drive [GenResume (at_cs 0); GenCancel; GenResume (at_cs 0); GenResume (at_cs 2);
            GenResume (at_cs 2); GenResume (at_cs 4)]
           TTSStream.init (TTSStream.GenCreated "a")).2 = 1%nat.
Proof. split; vm_compute; reflexivity. Qed.

(** ** The frame handler *)

Section HandlerFacts.

Context (cfg : Config) (is_speech : bytes → result bool).

(** The handler looks at a frame through the classifier only: two frames
    the classifier treats alike are handled alike, whatever their
    lengths. *)
Lemma handle_audio_frame_by_class frame1 frame2 ts w :
  is_speech frame1 = is_speech frame2 →
  handle_audio_frame cfg is_speech frame1 ts w
  = handle_audio_frame cfg is_speech frame2 ts w.
Proof.
  intros H. unfold handle_audio_frame, VADDetector.process. by rewrite H.
Qed.

(** C9, amended. The handler has no check of the frame's size: a frame of
    any length goes to the classifier. When the classifier rejects the
    frame, the handler raises the classifier's exception to its caller and
    leaves the session, its tasks and the emitted events exactly as they
    were, so that later frames are handled as if the rejected frame had
    never arrived. *)
Theorem rejected_frame_raises (frame : bytes) (ts : float) (w : World) (e : exn) :
  is_speech frame = raise e →
  handle_audio_frame cfg is_speech frame ts w = (w, Some e)
  ∧ step cfg is_speech (Frame frame ts) w = None.
Proof.
  intros H. unfold step, handle_audio_frame, VADDetector.process. by rewrite H.
Qed.


End HandlerFacts.

(** C9, counterexample. Whatever the configuration and whatever the
    classifier, the session does not drop every frame that is not 640
    bytes long: on the empty frame, a classifier that raises makes the
    handler raise; one that answers speech makes a fresh session open a
    turn; one that answers silence makes a session whose detector is
    active change its detector. *)
Lemma malformed_frame_not_dropped :
  ¬ ∃ cfg is_speech,
      ∀ (frame : bytes) ts w,
        length frame ≠ 640%nat →
        handle_audio_frame cfg is_speech frame ts w = (w, None).
Proof.
  intros (cfg & is_speech & H).
  destruct (is_speech []) as [e|[|]] eqn:Hcls.
  - specialize (H [] (at_cs 0) (World_init "dev-room" "agent-1") ltac:(done)).
    unfold handle_audio_frame, VADDetector.process in H. rewrite Hcls in H. done.
  - specialize (H [] (at_cs 0) (World_init "dev-room" "agent-1") ltac:(done)).
    unfold handle_audio_frame, VADDetector.process in H. rewrite Hcls in H.
    cbn in H. discriminate.
  - specialize (H [] (at_cs 0)
                  (mkWorld (AgentSession.mk "dev-room" "agent-1"
                              (VADDetector.mk true (Some (at_cs 0))) None None None 0)
                           [] [] [] 0)
                  ltac:(done)).
    unfold handle_audio_frame, VADDetector.process in H. rewrite Hcls in H.
    cbn in H. discriminate.
Qed.

(** With the classifier of the examples, a 2-byte frame makes the handler
    raise. *)
Lemma rejected_frame_raises_witness :
  handle_audio_frame (load_config None None None) demo_vad [Byte.x01; Byte.x01] (at_cs 0)
    (World_init "dev-room" "agent-1")
  = (World_init "dev-room" "agent-1", Some VadError)
  ∧ step (load_config None None None) demo_vad (Frame [Byte.x01; Byte.x01] (at_cs 0))
      (World_init "dev-room" "agent-1") = None.
Proof.
  apply (rejected_frame_raises (load_config None None None) demo_vad
           [Byte.x01; Byte.x01] (at_cs 0) (World_init "dev-room" "agent-1") VadError).
  reflexivity.
Defined.


(** ** Transcription timeout *)

Section SttFacts.

Context (cfg : Config).


End SttFacts.


(** ** The collector's window *)

Section CollectorFacts.

Context (WINDOW_SECONDS : Z).

Lemma ge_int_number v cutoff :
  is_number v = true → Collector.ge_int v cutoff = ok (number_ge v cutoff).
Proof. by destruct v. Qed.

Lemma truthy_not_null_or_zero v :
  v = JNull ∨ is_number v = true → json_truthy v = negb (null_or_zero v).
Proof.
  intros [->|Hv]; [done|]. destruct v as [|b|z|f|s|l|m]; try done.
  - by destruct b.
  - by destruct f.
Qed.

Lemma keep_well_formed cutoff e :
  well_formed_event e → Collector.keep cutoff e = ok (in_window cutoff e).
Proof.
  intros (m & -> & Hstart & Hnum).
  unfold Collector.keep, Collector.retention_key, Collector.get, in_window.
  unfold retention_value in *. cbn [bind ok].
  change (match m !! "timestamp" with Some v => v | None => JInt 0 end)
    with (default (JInt 0) (m !! "timestamp")).
  destruct (m !! "speech_start_ms") as [v|] eqn:Hv.
  - assert (v = JNull ∨ is_number v = true) as Hcase
      by (destruct v; eauto).
    rewrite (truthy_not_null_or_zero v Hcase).
    destruct (null_or_zero v); cbn [negb bind ok]; by apply ge_int_number.
  - cbn [json_truthy bind ok]. by apply ge_int_number.
Qed.

Lemma comprehension_well_formed cutoff evs :
  Forall well_formed_event evs →
  Collector.comprehension cutoff evs = ok (filter (λ e, in_window cutoff e = true) evs).
Proof.
  induction 1 as [|e evs He _ IH]; [done|].
  cbn [Collector.comprehension]. rewrite (keep_well_formed _ _ He), IH. cbn [bind ok].
  destruct (in_window cutoff e) eqn:Hw.
  - by rewrite filter_cons_True.
  - rewrite filter_cons_False; [done|]. by rewrite Hw.
Qed.

(** Whenever pruning runs to its end, what it keeps is inside the window. *)
Lemma comprehension_keeps cutoff : ∀ evs kept,
  Collector.comprehension cutoff evs = ok kept →
  Forall (λ e, Collector.keep cutoff e = ok true) kept ∧ kept ⊆ evs.
Proof.
  induction evs as [|e evs IH]; intros kept H; cbn in H.
  - injection H as <-. split; [constructor | done].
  - destruct (Collector.keep cutoff e) as [|b] eqn:Hb; [done|]. cbn in H.
    destruct (Collector.comprehension cutoff evs) as [|rest] eqn:Hr; [done|].
    cbn in H. injection H as <-. destruct (IH rest eq_refl) as [Hall Hsub].
    destruct b.
    + split; [by constructor|].
      intros x [->|Hx]%elem_of_cons; [left|right; by apply Hsub].
    + split; [done|]. intros x Hx. right. by apply Hsub.
Qed.

(** C10, amended. For a [/summary] or [/events] request, or an [/ingest]
    request whose body is JSON, over events of the expected schema (the
    buffer's and the ingested one): the request is answered without a
    server error, and the buffer it leaves is exactly the submitted events
    that are inside the window, in their order — every retained event has
    its [speech_start_ms], or its [timestamp] (0 when absent) when
    [speech_start_ms] is null, absent or zero, at least
    [now_ms - WINDOW_SECONDS * 1000]; every event outside the window is
    removed, the ingested one included. *)
Theorem prune_retains_window (r : Collector.request) (now_ms : Z) (_events : list json) :
  r ≠ Collector.Ingest None →
  Forall well_formed_event (submitted r _events) →
  let cutoff := now_ms - WINDOW_SECONDS * 1000 in
  Collector.handle WINDOW_SECONDS r now_ms _events
  = (true, filter (λ e, in_window cutoff e = true) (submitted r _events))
  ∧ Forall (λ e, in_window cutoff e = true)
           (Collector.handle WINDOW_SECONDS r now_ms _events).2
  ∧ ∀ e, e ∈ submitted r _events → in_window cutoff e = false →
         e ∉ (Collector.handle WINDOW_SECONDS r now_ms _events).2.
Proof.
  intros Hr Hwf cutoff.
  assert (Collector.handle WINDOW_SECONDS r now_ms _events
          = (true, filter (λ e, in_window cutoff e = true) (submitted r _events))) as ->.
  { destruct r as [[p|]| |]; try done;
      unfold Collector.handle, Collector.ingest, Collector.summary, Collector.events,
        Collector._prune;
      cbn [submitted] in *;
      by rewrite (comprehension_well_formed _ _ Hwf). }
  split; [done|]. cbn [snd]. split.
  - apply Forall_forall. intros e He. by apply list_elem_of_filter in He as [? _].
  - intros e _ Hout Hin. apply list_elem_of_filter in Hin as [Hin _]. congruence.
Qed.

End CollectorFacts.

(** C10, counterexample. With the default window of 60 s: an event with
    timestamp 1000 is ingested at time 1000 and retained; at time 10000000
    an [/ingest] request arrives whose body is not JSON. The request is
    answered (status 400) before any pruning, and the buffer it leaves
    still holds the first event, which is far outside the window. *)
Lemma ingest_invalid_json_skips_pruning :
  let e1 := JObj {["timestamp" := JInt 1000]} in
  let buf1 := (Collector.ingest 60 (Some e1) 1000 []).2 in
  buf1 = [e1]
  ∧ Collector.ingest 60 None 10000000 buf1 = (Collector.Status400, [e1])
  ∧ Collector.keep (10000000 - 60 * 1000) e1 = ok false
  ∧ in_window (10000000 - 60 * 1000) e1 = false.
Proof. cbn zeta. repeat split; vm_compute; reflexivity. Qed.

(** An ingested event whose [speech_start_ms] is a string makes the
    comparison of [_prune] raise after the event has been appended: the
    event stays, and so does every event already there, in this request
    and in every later one. *)
Lemma malformed_event_blocks_pruning :
  let e1 := JObj {["timestamp" := JInt 1000]} in
  let bad := JObj {["speech_start_ms" := JStr "x"]} in
  Collector.ingest 60 (Some bad) 10000000 [e1]
  = (Collector.Status500 TypeError, [e1; bad])
  ∧ Collector.summary 60 20000000 [e1; bad] = (Some TypeError, [e1; bad]).
Proof. cbn zeta. split; vm_compute; reflexivity. Qed.

(** An ingest at time 10000000 into a buffer holding a stale event: the
    stale event goes, the fresh one stays. *)
Lemma prune_retains_window_witness :
  let stale := JObj {["timestamp" := JInt 1000]} in
  let fresh := JObj (<["speech_start_ms" := JInt 9999000]> {["timestamp" := JInt 10000000]}) in
  Collector.handle 60 (Collector.Ingest (Some fresh)) 10000000 [stale] = (true, [fresh]).
Proof.
  cbn zeta.
  destruct (prune_retains_window 60
              (Collector.Ingest (Some (JObj (<["speech_start_ms" := JInt 9999000]>
                                             {["timestamp" := JInt 10000000]}))))
              10000000 [JObj {["timestamp" := JInt 1000]}]) as (H & _ & _).
  - discriminate.
  - repeat constructor; eexists; (split; [reflexivity|]); split; vm_compute; done.
  - rewrite H. vm_compute. reflexivity.
Defined.

(** ** Turns that overlap *)

(** C2, counterexample. Two speech segments 80 ms apart, with the default
    configuration. The second speech start finds no synthesis to cancel
    and opens turn 2 while the transcription of turn 1 is still running.
    Both transcriptions deliver their final, both start a synthesis, and
    the first frame of each synthesis posts the active turn, which is
    turn 2 both times. Turn 2 is the last turn, it is neither abandoned
    nor superseded, everything runs to its end without an exception, and
    it has been posted twice (by the synthesis tasks 0 and 1, each on its
    chunk 0); turn 1 has not been posted at all. *)
Lemma overlapping_turns_emit_twice :
  ∃ w,
    exec demo_cfg demo_vad overlapping_turns_trace demo_world = Some w
    ∧ completed w = true
    ∧ turn_no w = 2%nat
    ∧ length (emissions_of_turn 2 w) = 2%nat
    ∧ ((λ e, (em_task e, em_chunk e)) <$> emissions_of_turn 2 w) = [(0%nat, 0); (1%nat, 0)]
    ∧ emissions_of_turn 1 w = [].
Proof.
  destruct (exec demo_cfg demo_vad overlapping_turns_trace demo_world) as [w|] eqn:Hw;
    [|vm_compute in Hw; discriminate].
  exists w. split; [reflexivity|].
  vm_compute in Hw. injection Hw as <-.
  repeat split.
Qed.

(** C4, counterexample. In the same run the first event posted is turn 2
    with the first-partial timestamp of turn 1's transcription: the turn's
    speech started at 80 ms, its [stt_first_partial_ts] is 50 ms. *)
Lemma stale_partial_precedes_speech_start :
  ∃ w e,
    exec demo_cfg demo_vad overlapping_turns_trace demo_world = Some w
    ∧ metrics w !! 0%nat = Some e
    ∧ LatencyTurn.speech_start_ts (em_turn e) = Some (at_cs 8)
    ∧ LatencyTurn.stt_first_partial_ts (em_turn e) = Some (at_cs 5)
    ∧ PyFloat.leb (at_cs 8) (at_cs 5) = false
    ∧ ¬ monotonic (em_turn e)
    ∧ em_event e !! "speech_start_ms" = Some (JInt 1710000000080)
    ∧ em_event e !! "stt_first_partial_ms" = Some (JInt 1710000000050).
Proof.
  destruct (exec demo_cfg demo_vad overlapping_turns_trace demo_world) as [w|] eqn:Hw;
    [|vm_compute in Hw; discriminate].
  destruct (metrics w !! 0%nat) as [e|] eqn:He.
  2:{ vm_compute in Hw. injection Hw as <-. vm_compute in He. discriminate. }
  exists w, e. split; [reflexivity|]. split; [exact He|].
  vm_compute in Hw. injection Hw as <-. vm_compute in He. injection He as <-.
  split; [reflexivity|]. split; [reflexivity|]. split; [reflexivity|].
  split; [|split; reflexivity].
  unfold monotonic. intros Hs.
  apply StronglySorted_cons in Hs as [Hs _].
  apply Forall_cons in Hs as [Hs _]. vm_compute in Hs. discriminate.
Qed.

(** ** A turn that runs alone *)

Section SortedFacts.
Context {A : Type} (R : relation A).

Lemma StronglySorted_sublist (l1 l2 : list A) :
  l1 `sublist_of` l2 → StronglySorted R l2 → StronglySorted R l1.
Proof.
  induction 1 as [|x l1 l2 Hsub IH|x l1 l2 Hsub IH]; intros Hs.
  - constructor.
  - apply StronglySorted_cons in Hs as [Hall Hs].
    apply StronglySorted_cons. split; [|by apply IH].
    apply Forall_forall. intros y Hy. rewrite Forall_forall in Hall.
    apply Hall. by eapply (sublist_subseteq _ _ Hsub).
  - apply StronglySorted_cons in Hs as [_ Hs]. by apply IH.
Qed.

End SortedFacts.

Section Run.
Context (cfg : Config) (is_speech : bytes → result bool).

Lemma process_cases vad frame ts vad' out :
  VADDetector.process is_speech vad frame ts = ok (vad', out) →
  out = None ∨ out = Some ts.
Proof.
  unfold VADDetector.process. destruct (is_speech frame) as [e|b]; [done|]. cbn.
  repeat case_match; intros [= <- <-]; eauto.
Qed.

Lemma cancel_stream_tasks id w :
  ∃ tasks,
    cancel_stream id w = mkWorld (session w) (stt_tasks w) tasks (metrics w) (turn_no w)
    ∧ length tasks = length (tts_tasks w)
    ∧ (Forall (λ task, past_first_frame task = true) (tts_tasks w) →
       Forall (λ task, past_first_frame task = true) tasks).
Proof.
  unfold cancel_stream. destruct (tts_tasks w !! id) as [task|] eqn:Ht.
  - eexists. split; [reflexivity|]. split; [by rewrite length_insert|].
    intros Hall. apply Forall_insert; [done|].
    rewrite Forall_forall in Hall. by apply (Hall task), list_elem_of_lookup_2 with id.
  - exists (tts_tasks w). by destruct w.
Qed.

Lemma handle_audio_frame_cases pcm ts w w' :
  handle_audio_frame cfg is_speech pcm ts w = (w', None) →
  (∃ v, w' = set_session (AgentSession.set_vad v (session w)) w)
  ∨ (∃ v tasks,
       w' = mkWorld
              (AgentSession.set_active_turn
                 (Some (LatencyTurn.mk (Some ts) None None None None None))
                 (AgentSession.set_vad v (session w)))
              (stt_tasks w ++ [SttCreated ["audio"%string]])
              tasks (metrics w) (S (turn_no w))
       ∧ length tasks = length (tts_tasks w)
       ∧ (Forall (λ task, past_first_frame task = true) (tts_tasks w) →
          Forall (λ task, past_first_frame task = true) tasks)).
Proof.
  unfold handle_audio_frame.
  destruct (VADDetector.process _ _ _ _) as [e|[vad' out]] eqn:Hp; [done|].
  destruct (process_cases _ _ _ _ _ Hp) as [->| ->]; cbn [ts_truthy].
  - intros [= <-]. left. eauto.
  - destruct (PyFloat.truthy ts); [|intros [= <-]; left; eauto].
    intros [= <-]. right. exists vad'.
    set (w1 := set_session (AgentSession.set_vad vad' (session w)) w).
    assert (∀ w2, (w2 = w1 ∨ ∃ id, w2 = cancel_stream id w1) →
              ∃ tasks,
                mkWorld (AgentSession.set_active_turn
                           (Some (LatencyTurn.mk (Some ts) None None None None None))
                           (session w2))
                        (stt_tasks w2 ++ [SttCreated [AgentSession._frame_energy pcm]])
                        (tts_tasks w2) (metrics w2) (S (turn_no w2))
                = mkWorld (AgentSession.set_active_turn
                             (Some (LatencyTurn.mk (Some ts) None None None None None))
                             (AgentSession.set_vad vad' (session w)))
                          (stt_tasks w ++ [SttCreated ["audio"%string]])
                          tasks (metrics w) (S (turn_no w))
                ∧ length tasks = length (tts_tasks w)
                ∧ (Forall (λ task, past_first_frame task = true) (tts_tasks w) →
                   Forall (λ task, past_first_frame task = true) tasks)) as Hgen.
    { intros w2 [->|[id ->]].
      - exists (tts_tasks w). done.
      - destruct (cancel_stream_tasks id w1) as (tasks & -> & Hlen & Hall).
        exists tasks. done. }
    repeat case_match; apply Hgen; eauto.
Qed.

Lemma lookup_snoc_cases {A} (l : list A) x i y :
  (l ++ [x]) !! i = Some y →
  (l !! i = Some y) ∨ (i = length l ∧ y = x).
Proof.
  intros H. destruct (decide (i < length l)%nat) as [Hlt|Hge].
  - rewrite lookup_app_l in H by done. by left.
  - rewrite lookup_app_r in H by lia.
    destruct (i - length l)%nat as [|k] eqn:Hk; [|done].
    cbn in H. injection H as <-. right. split; [lia|done].
Qed.

Lemma insert_snoc {A} (l : list A) x y : <[length l := y]> (l ++ [x]) = l ++ [y].
Proof. rewrite insert_app_r_alt by lia. by rewrite Nat.sub_diag. Qed.

Lemma lookup_snoc {A} (l : list A) x : (l ++ [x]) !! length l = Some x.
Proof. rewrite lookup_app_r by lia. by rewrite Nat.sub_diag. Qed.

Lemma forallb_lookup {A} (f : A → bool) (l : list A) i x :
  forallb f l = true → l !! i = Some x → f x = true.
Proof.
  intros H Hx. rewrite forallb_forall in H.
  by apply H, list_elem_of_In, list_elem_of_lookup_2 with i.
Qed.

Lemma forallb_Forall {A} (f : A → bool) (l : list A) :
  forallb f l = true → Forall (λ x, f x = true) l.
Proof.
  intros H. apply Forall_forall. intros x Hx.
  rewrite forallb_forall in H. by apply H, list_elem_of_In.
Qed.

Lemma stt_step_done id now1 now2 w :
  (∀ pc, stt_tasks w !! id = Some pc → stt_is_done pc = true) →
  stt_step cfg id now1 now2 w = None.
Proof.
  intros H. unfold stt_step. destruct (stt_tasks w !! id) as [pc|]; [|done].
  specialize (H pc eq_refl). by destruct pc.
Qed.

(** A synthesis task past its first frame stays so, and its step touches
    nothing but the task itself. *)
Lemma tts_step_past_first_frame id now1 now2 w w1 task :
  tts_tasks w !! id = Some task →
  past_first_frame task = true →
  tts_step id now1 now2 w = Some w1 →
  ∃ task', w1 = set_tts_task id task' w ∧ past_first_frame task' = true.
Proof.
  intros Ht Hp. unfold tts_step. rewrite Ht. unfold past_first_frame in Hp.
  assert (∀ stream gen pc,
            past_first_frame (mkTtsTask stream gen false pc) = true) as Hfalse.
  { intros stream gen pc. unfold past_first_frame. cbn. by destruct pc. }
  destruct (tts_pc task) eqn:Hpc; try done.
  2:{ intros [= <-]. eauto. }
  all: apply negb_true_iff in Hp; rewrite Hp;
    destruct (TTSStream.resume now1 _ _) as [exc|[[stream' gen'] yielded]];
    [ intros [= <-]; eauto |];
    destruct gen' as [text|i total|i total|]; intros [= <-]; eauto;
    unfold consume_chunk; cbn [tts_first_chunk];
    destruct (AgentSession.active_turn _); eauto.
Qed.

Lemma tts_step_olds id now1 now2 s stts olds rest ms n w1 :
  Forall (λ task, past_first_frame task = true) olds →
  (id < length olds)%nat →
  tts_step id now1 now2 (mkWorld s stts (olds ++ rest) ms n) = Some w1 →
  ∃ olds', w1 = mkWorld s stts (olds' ++ rest) ms n
           ∧ length olds' = length olds
           ∧ Forall (λ task, past_first_frame task = true) olds'.
Proof.
  intros Hall Hid Hstep.
  destruct (lookup_lt_is_Some_2 olds id Hid) as [task Ht].
  eapply (tts_step_past_first_frame _ _ _ _ _ task) in Hstep as (task' & -> & Hp).
  - exists (<[id := task']> olds). unfold set_tts_task.
    cbn [session stt_tasks tts_tasks metrics turn_no].
    rewrite insert_app_l by done. split; [done|]. split; [by rewrite length_insert|].
    by apply Forall_insert.
  - cbn [tts_tasks]. by rewrite lookup_app_l.
  - rewrite Forall_forall in Hall. by apply (Hall task), list_elem_of_lookup_2 with id.
Qed.

Lemma tts_step_range id now1 now2 w w1 :
  tts_step id now1 now2 w = Some w1 → (id < length (tts_tasks w))%nat.
Proof.
  unfold tts_step. destruct (tts_tasks w !! id) eqn:Ht; [|done].
  intros _. by eapply lookup_lt_Some.
Qed.

Section Phases.

Context (R : relation float) (R_refl : ∀ x, x ≠ S754_nan → R x x).
Context (w0 : World) (Hsettled : settled w0 = true).

Lemma settled_stt : forallb stt_is_done (stt_tasks w0) = true.
Proof. unfold settled in Hsettled. by apply andb_prop in Hsettled as [? ?]. Qed.

Lemma settled_olds : old_tasks w0 (tts_tasks w0).
Proof.
  split; [done|]. apply forallb_Forall.
  unfold settled in Hsettled. by apply andb_prop in Hsettled as [? ?].
Qed.

Lemma sorted_drop (pre mid fut : list float) :
  StronglySorted R (pre ++ mid ++ fut) → StronglySorted R (pre ++ fut).
Proof.
  apply StronglySorted_sublist. apply sublist_app; [done|]. by apply sublist_inserts_l.
Qed.

Lemma phase_frame pcm ts fut w w1 :
  phase cfg R w0 (ts :: fut) w →
  handle_audio_frame cfg is_speech pcm ts w = (w1, None) →
  (turn_no w1 ≤ S (turn_no w0))%nat →
  phase cfg R w0 fut w1.
Proof.
  intros Hph Hh Hno.
  destruct (handle_audio_frame_cases pcm ts w w1 Hh)
    as [[v ->]|(v & tasks & -> & Hlen & Hall)].
  - destruct Hph; unfold set_session; cbn [session stt_tasks tts_tasks metrics turn_no].
    + apply PhIdle; [done|done|].
      match goal with H : StronglySorted _ (_ :: _) |- _ =>
        by apply StronglySorted_cons in H as [_ ?] end.
    + eapply PhListening; [done..|].
      rewrite app_assoc in *. by apply (sorted_drop _ [ts]).
    + by apply PhSttFailed.
    + eapply PhDeciding; [done..|]. by apply (sorted_drop _ [ts]).
    + by eapply PhTtsFailed.
    + by eapply PhSilent.
    + by eapply PhResponding.
  - destruct Hph as [s olds [Holen Hold] Hidx Hs| | | | | |];
      cbn [turn_no] in Hno; try lia.
    cbn [session stt_tasks tts_tasks metrics turn_no] in *.
    eapply PhListening; [|done|done|constructor|done].
    split; [congruence|by apply Hall].
Qed.

Lemma stt_step_old id now1 now2 s tts ms n :
  stt_step cfg id now1 now2 (mkWorld s (stt_tasks w0) tts ms n) = None.
Proof.
  apply stt_step_done. intros pc Hpc. by eapply forallb_lookup; [apply settled_stt|].
Qed.

Lemma stt_step_snoc_done id now1 now2 s exc tts ms n :
  stt_step cfg id now1 now2 (mkWorld s (stt_tasks w0 ++ [SttDone exc]) tts ms n) = None.
Proof.
  apply stt_step_done. cbn [stt_tasks]. intros pc [Hpc|[_ ->]]%lookup_snoc_cases; [|done].
  by eapply forallb_lookup; [apply settled_stt|].
Qed.

Lemma stt_step_snoc_pending id now1 now2 s pc tts ms n w1 :
  stt_step cfg id now1 now2 (mkWorld s (stt_tasks w0 ++ [pc]) tts ms n) = Some w1 →
  id = length (stt_tasks w0).
Proof.
  intros H. unfold stt_step in H. cbn [stt_tasks] in H.
  destruct ((stt_tasks w0 ++ [pc]) !! id) as [pc'|] eqn:Hl; [|done].
  apply lookup_snoc_cases in Hl as [Hl|[-> _]]; [|done].
  pose proof (forallb_lookup _ _ _ _ settled_stt Hl). by destruct pc'.
Qed.

Lemma build_reply_index transcript (s s' : AgentSession.t) :
  AgentSession.script_index s' = AgentSession.script_index s →
  match AgentSession._build_reply cfg transcript s with
  | inl e => AgentSession._build_reply cfg transcript s' = inl e
  | inr (reply, s1) =>
      ∃ s1', AgentSession._build_reply cfg transcript s' = inr (reply, s1')
  end.
Proof.
  intros Hidx. unfold AgentSession._build_reply, AgentSession.next_script_line.
  rewrite Hidx. unfold ok, raise. repeat case_match; simplify_eq; eauto.
Qed.

Lemma phase_stt id now1 now2 fut w w1 :
  phase cfg R w0 (now1 :: now2 :: fut) w →
  stt_step cfg id now1 now2 w = Some w1 →
  phase cfg R w0 fut w1.
Proof.
  intros Hph Hstep.
  destruct Hph as [s olds Hold|s olds pc turn extra Hold Hturn Hidx Hshape Hsorted| | | | |].
  - by rewrite stt_step_old in Hstep.
  - pose proof (stt_step_snoc_pending _ _ _ _ _ _ _ _ _ Hstep) as ->.
    unfold stt_step in Hstep. cbn [stt_tasks] in Hstep. rewrite lookup_snoc in Hstep.
    destruct Hshape as [ts0|ts0|ts0 p|ts0 fp stt Hwait].
    + injection Hstep as <-. unfold set_stt_task. cbn [session stt_tasks tts_tasks metrics turn_no].
      rewrite insert_snoc. eapply PhListening; [done|done|done|constructor|].
      by apply (sorted_drop _ [now1; now2]).
    + injection Hstep as <-. unfold set_stt_task. cbn [session stt_tasks tts_tasks metrics turn_no].
      rewrite insert_snoc. eapply PhListening; [done|done|done|apply (ShFinalSleep ts0 now1)|].
      cbn in *.
      apply (StronglySorted_sublist _ _ _
               (sublist_skip _ _ _ (sublist_skip _ _ _
                  (sublist_cons _ _ _ (reflexivity _)))) Hsorted).
    + injection Hstep as <-. rewrite Hturn.
      change (STTStream.first_partial_ts (STTStream.simulate_stt_final _ _)) with (Some p).
      cbn [ts_truthy LatencyTurn.stt_first_partial_ts negb andb].
      rewrite andb_true_r.
      destruct (PyFloat.truthy p);
        unfold set_stt_task, set_session;
        cbn [session stt_tasks tts_tasks metrics turn_no]; rewrite insert_snoc.
      * eapply PhListening; [done|done|done|by apply (ShAwaitFinal ts0 (Some p))|].
        cbn in *.
        apply (StronglySorted_sublist _ _ _
                 (sublist_skip _ _ _ (sublist_skip _ _ _
                    (sublist_cons _ _ _ (sublist_cons _ _ _ (reflexivity _))))) Hsorted).
      * eapply PhListening; [done|done|done|by apply (ShAwaitFinal ts0 None)|].
        cbn in *.
        apply (StronglySorted_sublist _ _ _
                 (sublist_skip _ _ _ (sublist_cons _ _ _
                    (sublist_cons _ _ _ (sublist_cons _ _ _ (reflexivity _))))) Hsorted).
    + unfold stt_collect_finish in Hstep. cbn [session] in Hstep.
      rewrite Hwait, Hturn in Hstep.
      cbn [PyStr.opt_truthy LatencyTurn.speech_start_ts LatencyTurn.stt_first_partial_ts
           LatencyTurn.stt_final_ts LatencyTurn.agent_decision_ts
           LatencyTurn.tts_first_byte_ts LatencyTurn.playback_start_ts session] in Hstep.
      destruct (AgentSession._build_reply cfg "audio" _) as [e|[reply s2]] eqn:Hreply;
        injection Hstep as <-.
      * unfold set_stt_task, set_session.
        cbn [session stt_tasks tts_tasks metrics turn_no]. rewrite insert_snoc.
        by apply PhSttFailed.
      * unfold set_stt_task, _start_tts, set_session.
        cbn [session stt_tasks tts_tasks metrics turn_no]. rewrite insert_snoc.
        eapply PhDeciding; [done|done|done|done| |].
        { eexists _, s2. split; [|exact Hreply]. done. }
        destruct fp; exact Hsorted.
  - by rewrite stt_step_snoc_done in Hstep.
  - by rewrite stt_step_snoc_done in Hstep.
  - by rewrite stt_step_snoc_done in Hstep.
  - by rewrite stt_step_snoc_done in Hstep.
  - by rewrite stt_step_snoc_done in Hstep.
Qed.

Lemma to_dict_first_byte turn d :
  LatencyTurn.to_dict turn = inr d →
  ∃ v, LatencyTurn._ms (LatencyTurn.tts_first_byte_ts turn) = inr v.
Proof.
  unfold LatencyTurn.to_dict, bind.
  repeat (let v := fresh "v" in destruct (LatencyTurn._ms _) as [?|v]; [done|]).
  eauto.
Qed.

Lemma latency_event_not_nan s turn now ev a :
  latency_event s turn now = inr ev →
  LatencyTurn.tts_first_byte_ts turn = Some a →
  a ≠ S754_nan.
Proof.
  unfold latency_event, bind. destruct (PyFloat.to_int _); [done|].
  destruct (LatencyTurn.to_dict turn) as [|d] eqn:Hd; [done|]. intros _ Ha ->.
  apply to_dict_first_byte in Hd as [v Hv]. rewrite Ha in Hv. done.
Qed.

Lemma milestones_first_frame turn a :
  LatencyTurn.tts_first_byte_ts turn = None →
  LatencyTurn.playback_start_ts turn = None →
  milestones (LatencyTurn.mk (LatencyTurn.speech_start_ts turn)
                (LatencyTurn.stt_first_partial_ts turn) (LatencyTurn.stt_final_ts turn)
                (LatencyTurn.agent_decision_ts turn) (Some a) (Some a))
  = milestones turn ++ [a; a].
Proof.
  destruct turn as [t1 t2 t3 t4 t5 t6]. cbn. intros -> ->.
  destruct t1, t2, t3, t4; reflexivity.
Qed.

Lemma sorted_first_frame (pre : list float) a b fut :
  R a a → StronglySorted R (pre ++ a :: b :: fut) → StronglySorted R (pre ++ [a; a]).
Proof.
  intros Haa Hs. apply StronglySorted_app in Hs as (Hcross & Hpre & Ha).
  apply StronglySorted_app. split; [|split; [done|]].
  - intros x Hx y Hy. apply list_elem_of_In in Hy. cbn in Hy.
    destruct Hy as [<-|[<-|[]]]; apply Hcross; try done; apply list_elem_of_here.
  - repeat constructor; done.
Qed.

(** A step of a synthesis task in a world whose synthesis tasks are
    [olds ++ rest]: a step of one of [olds], or of one of [rest]. *)
Lemma tts_step_split id now1 now2 s stts olds rest ms n w1 :
  old_tasks w0 olds →
  tts_step id now1 now2 (mkWorld s stts (olds ++ rest) ms n) = Some w1 →
  (∃ olds', old_tasks w0 olds' ∧ w1 = mkWorld s stts (olds' ++ rest) ms n)
  ∨ (length olds ≤ id < length olds + length rest)%nat.
Proof.
  intros [Hlen Hall] Hstep. destruct (decide (id < length olds)%nat) as [Hlt|Hge].
  - left. destruct (tts_step_olds _ _ _ _ _ _ _ _ _ _ Hall Hlt Hstep) as (olds' & -> & ? & ?).
    exists olds'. split; [split; [congruence|done]|done].
  - right. apply tts_step_range in Hstep. cbn [tts_tasks] in Hstep.
    rewrite length_app in Hstep. lia.
Qed.

Lemma phase_tts id now1 now2 fut w w1 :
  phase cfg R w0 (now1 :: now2 :: fut) w →
  tts_step id now1 now2 w = Some w1 →
  phase cfg R w0 fut w1.
Proof.
  intros Hph Hstep.
  destruct Hph as [s olds Hold Hidx Hsorted
                  |s olds pc turn extra Hold Hturn Hidx Hshape Hsorted
                  |s olds e Hold
                  |s olds turn text Hold Hturn Hfb Hpb Htext Hsorted
                  |s olds task e Hold Hpc
                  |s olds task text total Hold Htext Htotal Hle Hpc
                  |s olds task e Hold Hpc Htask Hno Hchunk Hsorted].
  - rewrite <- (app_nil_r olds) in Hstep.
    destruct (tts_step_split _ _ _ _ _ _ _ _ _ _ Hold Hstep) as [(olds' & Hold' & ->)|Hr];
      [|cbn in Hr; lia].
    rewrite app_nil_r. apply PhIdle; [done|done|].
    by do 2 apply StronglySorted_cons in Hsorted as [_ Hsorted].
  - rewrite <- (app_nil_r olds) in Hstep.
    destruct (tts_step_split _ _ _ _ _ _ _ _ _ _ Hold Hstep) as [(olds' & Hold' & ->)|Hr];
      [|cbn in Hr; lia].
    rewrite app_nil_r. eapply PhListening; [done..|].
    rewrite app_assoc in *. by apply (sorted_drop _ [now1; now2]).
  - rewrite <- (app_nil_r olds) in Hstep.
    destruct (tts_step_split _ _ _ _ _ _ _ _ _ _ Hold Hstep) as [(olds' & Hold' & ->)|Hr];
      [|cbn in Hr; lia].
    rewrite app_nil_r. by apply PhSttFailed.
  - destruct (tts_step_split _ _ _ _ _ _ _ _ _ _ Hold Hstep) as [(olds' & Hold' & ->)|Hr].
    { eapply PhDeciding; [done..|]. by apply (sorted_drop _ [now1; now2]). }
    assert (id = length olds) as -> by (cbn in Hr; lia).
    unfold tts_step in Hstep. cbn [tts_tasks] in Hstep. rewrite lookup_snoc in Hstep.
    cbn [tts_pc tts_stream tts_gen tts_first_chunk TTSStream.resume] in Hstep.
    destruct (TTSStream.total_frames text) as [e|total] eqn:Htotal;
      cbn [bind ok] in Hstep.
    + injection Hstep as <-. unfold set_tts_task.
      cbn [session stt_tasks tts_tasks metrics turn_no]. rewrite insert_snoc.
      by eapply PhTtsFailed.
    + unfold TTSStream.loop_head in Hstep.
      destruct (0 <? total) eqn:Hpos.
      * cbn [TTSStream._cancel TTSStream.init TTSStream.first_audio_ts] in Hstep.
        injection Hstep as <-. unfold consume_chunk.
        cbn [session tts_first_chunk tts_stream tts_gen TTSStream.first_audio_ts].
        rewrite Hturn.
        destruct (latency_event _ _ now2) as [e|event] eqn:Hev.
        -- unfold set_tts_task, set_session.
           cbn [session stt_tasks tts_tasks metrics turn_no]. rewrite insert_snoc.
           by eapply PhTtsFailed.
        -- cbn [session stt_tasks tts_tasks metrics turn_no]. rewrite insert_snoc.
           eapply PhResponding; [done|done|by destruct Hold as [-> _]|done|done|].
           cbn [em_turn]. rewrite milestones_first_frame by done.
           eapply sorted_first_frame; [|exact Hsorted].
           apply R_refl. by eapply latency_event_not_nan.
      * injection Hstep as <-. unfold set_tts_task.
        cbn [session stt_tasks tts_tasks metrics turn_no]. rewrite insert_snoc.
        eapply PhSilent; [done|done|done| |done]. apply Z.ltb_ge in Hpos. lia.
  - destruct (tts_step_split _ _ _ _ _ _ _ _ _ _ Hold Hstep) as [(olds' & Hold' & ->)|Hr].
    { by eapply PhTtsFailed. }
    assert (id = length olds) as -> by (cbn in Hr; lia).
    unfold tts_step in Hstep. cbn [tts_tasks] in Hstep. rewrite lookup_snoc in Hstep.
    by rewrite Hpc in Hstep.
  - destruct (tts_step_split _ _ _ _ _ _ _ _ _ _ Hold Hstep) as [(olds' & Hold' & ->)|Hr].
    { by eapply PhSilent. }
    assert (id = length olds) as -> by (cbn in Hr; lia).
    unfold tts_step in Hstep. cbn [tts_tasks] in Hstep. rewrite lookup_snoc in Hstep.
    by rewrite Hpc in Hstep.
  - destruct (tts_step_split _ _ _ _ _ _ _ _ _ _ Hold Hstep) as [(olds' & Hold' & ->)|Hr].
    { by eapply PhResponding. }
    assert (id = length olds) as -> by (cbn in Hr; lia).
    eapply (tts_step_past_first_frame _ _ _ _ _ task) in Hstep as (task' & -> & Hp);
      [|cbn [tts_tasks]; apply lookup_snoc|done].
    unfold set_tts_task. cbn [session stt_tasks tts_tasks metrics turn_no].
    rewrite insert_snoc. by eapply PhResponding.
Qed.

End Phases.

Lemma stt_step_turn_no id now1 now2 w w1 :
  stt_step cfg id now1 now2 w = Some w1 → turn_no w1 = turn_no w.
Proof.
  unfold stt_step, stt_collect_finish. intros H.
  repeat case_match; simplify_eq; reflexivity.
Qed.

Lemma tts_step_turn_no id now1 now2 w w1 :
  tts_step id now1 now2 w = Some w1 → turn_no w1 = turn_no w.
Proof.
  unfold tts_step, consume_chunk. intros H.
  repeat case_match; simplify_eq; reflexivity.
Qed.

Lemma step_turn_no l w w1 :
  step cfg is_speech l w = Some w1 → (turn_no w ≤ turn_no w1)%nat.
Proof.
  destruct l as [pcm ts|id now1 now2|id now1 now2]; cbn [step].
  - destruct (handle_audio_frame cfg is_speech pcm ts w) as [w' [e|]] eqn:Hh; [done|].
    intros [= <-].
    destruct (handle_audio_frame_cases pcm ts w w' Hh) as [[v ->]|(v & tasks & -> & _)];
      cbn; lia.
  - intros ->%stt_step_turn_no. done.
  - intros ->%tts_step_turn_no. done.
Qed.

Lemma exec_turn_no tr : ∀ w w1,
  exec cfg is_speech tr w = Some w1 → (turn_no w ≤ turn_no w1)%nat.
Proof.
  induction tr as [|l tr IH]; intros w w1; cbn [exec].
  - by intros [= <-].
  - destruct (step cfg is_speech l w) as [w'|] eqn:Hs; [|done].
    intros Hex. apply step_turn_no in Hs. apply IH in Hex. lia.
Qed.

Section Runs.

Context (R : relation float) (R_refl : ∀ x, x ≠ S754_nan → R x x).
Context (w0 : World) (Hsettled : settled w0 = true).

Lemma phase_step l fut w w1 :
  phase cfg R w0 (label_readings l ++ fut) w →
  step cfg is_speech l w = Some w1 →
  (turn_no w1 ≤ S (turn_no w0))%nat →
  phase cfg R w0 fut w1.
Proof.
  destruct l as [pcm ts|id now1 now2|id now1 now2]; cbn [step label_readings app];
    intros Hph Hstep Hno.
  - destruct (handle_audio_frame cfg is_speech pcm ts w) as [w' [e|]] eqn:Hh; [done|].
    injection Hstep as <-. by eapply phase_frame.
  - by eapply phase_stt.
  - by eapply phase_tts.
Qed.

Lemma phase_exec tr : ∀ w w1,
  phase cfg R w0 (readings tr) w →
  exec cfg is_speech tr w = Some w1 →
  (turn_no w1 ≤ S (turn_no w0))%nat →
  phase cfg R w0 [] w1.
Proof.
  induction tr as [|l tr IH]; intros w w1 Hph; cbn [exec].
  - by intros [= <-].
  - destruct (step cfg is_speech l w) as [w'|] eqn:Hs; [|done].
    intros Hex Hno. apply (IH w'); [|done..].
    eapply phase_step; [exact Hph|exact Hs|].
    apply exec_turn_no in Hex. lia.
Qed.

(** What a run that opens at most one turn from a settled world has
    posted. *)
Lemma isolated_run tr w1 :
  StronglySorted R (readings tr) →
  exec cfg is_speech tr w0 = Some w1 →
  (turn_no w1 ≤ S (turn_no w0))%nat →
  ∃ new,
    metrics w1 = metrics w0 ++ new
    ∧ (length new ≤ 1)%nat
    ∧ Forall (λ e, em_task e = length (tts_tasks w0)
                   ∧ em_turn_no e = S (turn_no w0)
                   ∧ em_chunk e = 0
                   ∧ StronglySorted R (milestones (em_turn e))) new
    ∧ (completed w1 = true → turn_no w1 = S (turn_no w0) →
       new = [] →
       ∃ text total, reply_text cfg w0 text
                     ∧ TTSStream.total_frames text = ok total ∧ total ≤ 0).
Proof.
  intros Hsorted Hex Hno.
  assert (phase cfg R w0 (readings tr) w0) as Hph0.
  { pose proof (settled_olds w0 Hsettled) as Hold. destruct w0 as [s0 st0 tt0 m0 n0].
    by apply (PhIdle _ _ (mkWorld s0 st0 tt0 m0 n0)). }
  pose proof (phase_exec tr w0 w1 Hph0 Hex Hno) as Hph.
  destruct Hph as [s olds Hold Hidx Hs|s olds pc turn extra Hold Hturn Hidx Hshape Hs
                  |s olds e Hold
                  |s olds turn text Hold Hturn Hfb Hpb Htext Hs
                  |s olds task e Hold Hpc|s olds task text total Hold Htext Htotal Hle Hpc
                  |s olds task e Hold Hpc Htask Hn Hchunk Hs];
    cbn [metrics turn_no].
  7:{ exists [e]. split; [done|]. split; [done|]. split; [by repeat constructor|].
      intros _ _ [=]. }
  all: exists []; rewrite app_nil_r; split; [done|]; split; [cbn; lia|];
    split; [constructor|]; unfold completed; cbn [stt_tasks tts_tasks];
    rewrite ?forallb_app; cbn [forallb]; intros Hc Ht.
  - lia.
  - destruct Hshape; cbn in Hc; rewrite ?andb_false_r in Hc; done.
  - cbn in Hc; rewrite ?andb_false_r in Hc; done.
  - cbn in Hc; rewrite ?andb_false_r in Hc; done.
  - rewrite Hpc in Hc. cbn in Hc; rewrite ?andb_false_r in Hc; done.
  - eauto.
Qed.

End Runs.

Lemma fle_refl x : x ≠ S754_nan → fle x x.
Proof.
  intros Hx. unfold fle, PyFloat.leb, SFleb.
  destruct x as [s|s| |s m e]; try done; cbn.
  - by destruct s.
  - destruct s; rewrite Z.compare_refl, Pos.compare_cont_refl; done.
Qed.

End Run.

Lemma StronglySorted_any (l : list float) : StronglySorted (λ _ _, True) l.
Proof. induction l; constructor; [done|]. by apply Forall_forall. Qed.

(** C2, amended. Start from a settled session: no transcription task in
    flight, every synthesis task past its first frame or done. Let a run
    open exactly one turn and end with every task done and none failed,
    and let the reply to that turn have at least one frame. Then exactly
    one event is posted during the run; it is posted for that turn, by
    the turn's own synthesis task, on the task's first chunk. *)
Theorem lone_turn_posts_once (cfg : Config) (is_speech : bytes → result bool)
    (w0 w1 : World) (tr : list label) (reply : string) (s1 : AgentSession.t) (n : Z) :
  settled w0 = true →
  AgentSession._build_reply cfg "audio" (session w0) = ok (reply, s1) →
  TTSStream.total_frames reply = ok n →
  0 < n →
  exec cfg is_speech tr w0 = Some w1 →
  turn_no w1 = S (turn_no w0) →
  completed w1 = true →
  ∃ e, metrics w1 = metrics w0 ++ [e]
       ∧ em_turn_no e = turn_no w1
       ∧ em_task e = length (tts_tasks w0)
       ∧ em_chunk e = 0.
Proof.
  intros Hsettled Hreply Hframes Hpos Hex Hturn Hdone.
  destruct (isolated_run cfg is_speech (λ _ _, True) (λ _ _, I) w0 Hsettled tr w1
              (StronglySorted_any _) Hex ltac:(lia))
    as (new & Hm & Hlen & Hall & Hnone).
  destruct new as [|e [|e' new]]; [|clear Hnone|cbn in Hlen; lia].
  - destruct (Hnone Hdone Hturn eq_refl) as (text & total & (s & s' & Hidx & Htext) & Htot & Hle).
    pose proof (build_reply_index cfg "audio" (session w0) s Hidx) as Hsame.
    rewrite Hreply in Hsame. destruct Hsame as [s1' Hsame].
    unfold ok in *. rewrite Htext in Hsame. injection Hsame as -> _.
    rewrite Hframes in Htot. injection Htot as ->. lia.
  - apply Forall_cons in Hall as [(Htask & Hno & Hchunk & _) _].
    exists e. rewrite Hturn. done.
Qed.

(** The barge-in of the examples: turn 2 is posted once, by task 1. *)
Lemma lone_turn_posts_once_witness :
  ∃ w1 e,
    exec demo_cfg demo_vad barge_in_trace responding_world = Some w1
    ∧ metrics w1 = metrics responding_world ++ [e]
    ∧ em_turn_no e = 2%nat ∧ em_task e = 1%nat ∧ em_chunk e = 0.
Proof.
  destruct (exec demo_cfg demo_vad barge_in_trace responding_world) as [w1|] eqn:Hex;
    [|vm_compute in Hex; discriminate].
  destruct (lone_turn_posts_once demo_cfg demo_vad responding_world w1 barge_in_trace
              "You said: audio. Nice!" (session responding_world) 65)
    as (e & Hm & Hno & Htask & Hchunk).
  - vm_compute. reflexivity.
  - vm_compute. reflexivity.
  - vm_compute. reflexivity.
  - lia.
  - exact Hex.
  - vm_compute in Hex. injection Hex as <-. reflexivity.
  - vm_compute in Hex. injection Hex as <-. reflexivity.
  - exists w1, e. split; [reflexivity|]. split; [exact Hm|].
    split; [|split; [exact Htask | exact Hchunk]].
    rewrite Hno. vm_compute in Hex. injection Hex as <-. reflexivity.
Defined.

(** C4, amended. Start from a settled session and let a run open at most
    one turn, under a clock whose readings never decrease. Then in every
    [LatencyTurn] posted during the run, every pair of present timestamps
    among speech start, first partial, final, decision, first byte and
    playback start is in order, earlier ≤ later. *)
Theorem lone_turn_monotonic (cfg : Config) (is_speech : bytes → result bool)
    (w0 w1 : World) (tr : list label) :
  settled w0 = true →
  StronglySorted fle (readings tr) →
  exec cfg is_speech tr w0 = Some w1 →
  (turn_no w1 ≤ S (turn_no w0))%nat →
  ∃ new, metrics w1 = metrics w0 ++ new
         ∧ Forall (λ e, monotonic (em_turn e)) new.
Proof.
  intros Hsettled Hsorted Hex Hturn.
  destruct (isolated_run cfg is_speech fle fle_refl w0 Hsettled tr w1 Hsorted Hex Hturn)
    as (new & Hm & _ & Hall & _).
  exists new. split; [done|].
  eapply Forall_impl; [exact Hall|]. by intros e (_ & _ & _ & ?).
Qed.

(** The barge-in of the examples up to the first frame of the new
    synthesis: the turn posted there is in order. *)
Lemma lone_turn_monotonic_witness :
  ∃ w1 new,
    exec demo_cfg demo_vad barge_in_prefix responding_world = Some w1
    ∧ metrics w1 = metrics responding_world ++ new
    ∧ length new = 1%nat
    ∧ Forall (λ e, monotonic (em_turn e)) new.
Proof.
  destruct (exec demo_cfg demo_vad barge_in_prefix responding_world) as [w1|] eqn:Hex;
    [|vm_compute in Hex; discriminate].
  destruct (lone_turn_monotonic demo_cfg demo_vad responding_world w1 barge_in_prefix)
    as (new & Hm & Hall).
  - vm_compute. reflexivity.
  - apply (bool_decide_unpack (StronglySorted fle (readings barge_in_prefix))).
    vm_compute. exact I.
  - exact Hex.
  - vm_compute in Hex. injection Hex as <-. vm_compute. lia.
  - exists w1, new. split; [reflexivity|]. split; [exact Hm|]. split; [|exact Hall].
    apply (f_equal length) in Hm. rewrite length_app in Hm.
    vm_compute in Hex. injection Hex as <-. vm_compute in Hm.
    destruct new as [|e [|e' new]]; cbn in Hm; try discriminate. reflexivity.
Defined.
